(** * django-annoying: [annoying/fields.py]

    A shallow embedding of [AutoSingleRelatedObjectDescriptor.__get__] and of
    [JSONField] (Python 3 semantics), with the fragments of the Python
    standard library ([json.dumps], [json.loads], [bytes.decode]) and of the
    Django ORM that the two classes call into. *)

From Stdlib Require Import ZArith NArith List Bool Lia Decimal DecimalZ DecimalPos DecimalFacts.
From Stdlib Require Import Ascii String Sorted.
From stdpp Require Import base option list gmap.
Import ListNotations.

Local Open Scope N_scope.

(** ** Python values *)

(** A Python [str] is a sequence of Unicode code points. *)
Definition pystr := list N.

(** Literals: every character of a Rocq string is one code point. *)
Definition str (s : string) : pystr :=
  List.map N_of_ascii (list_ascii_of_string s).

(** The value universe: [None], [bool], [int], [str], [bytes], [list] and
    [dict] with [str] keys.  A [dict] keeps its items in insertion order.
    Floats are not part of the model. *)
Unset Elimination Schemes.
Inductive pyval : Type :=
| PNone
| PBool (b : bool)
| PInt (z : Z)
| PStr (s : pystr)
| PBytes (b : list N)
| PList (l : list pyval)
| PDict (d : list (pystr * pyval)).
Set Elimination Schemes.

(** Exceptions.  [JSONDecodeError] and [UnicodeDecodeError] are subclasses of
    [ValueError]; [DoesNotExist] is the related model's [DoesNotExist]. *)
Inductive exn : Type :=
| ValueError
| JSONDecodeError
| UnicodeDecodeError
| TypeError
| AttributeError
| DoesNotExist
| IntegrityError
| MultipleObjectsReturned.

(** [isinstance(e, ValueError)], what [except ValueError] tests. *)
Definition is_ValueError (e : exn) : bool :=
  match e with
  | ValueError | JSONDecodeError | UnicodeDecodeError => true
  | _ => false
  end.

(** The result of a call: a returned value, a raised exception, or
    [Unmodelled] where the call leaves the modelled fragment: a float, or a
    scanner that was given too little fuel for its input. *)
Inductive outcome (A : Type) : Type :=
| Return (a : A)
| Raise (e : exn)
| Unmodelled.
Arguments Return {A} a.
Arguments Raise {A} e.
Arguments Unmodelled {A}.

#[global] Instance outcome_ret : MRet outcome := fun A a => Return a.

#[global] Instance outcome_bind : MBind outcome := fun A B k m =>
  match m with
  | Return a => k a
  | Raise e => Raise e
  | Unmodelled => Unmodelled
  end.

(** Evaluate a list of argument results from left to right. *)
Fixpoint osequence {A} (l : list (outcome A)) : outcome (list A) :=
  match l with
  | [] => Return []
  | m :: l' => x ← m; xs ← osequence l'; Return (x :: xs)
  end.

(** ** Python equality [a == b] on the value universe *)

Fixpoint str_eqb (a b : pystr) : bool :=
  match a, b with
  | [], [] => true
  | x :: a', y :: b' => (x =? y) && str_eqb a' b'
  | _, _ => false
  end.

(** [d.get(k)] on the item list of a dict. *)
Fixpoint dict_get {V} (k : pystr) (d : list (pystr * V)) : option V :=
  match d with
  | [] => None
  | (k', v) :: d' => if str_eqb k k' then Some v else dict_get k d'
  end.

Definition bool_int (b : bool) : Z := if b then 1%Z else 0%Z.

(** [bool] is a subclass of [int]: [True == 1].  Lists compare element by
    element, dicts by size and then key by key, whatever the order. *)
Fixpoint py_eq (a b : pyval) {struct a} : bool :=
  match a, b with
  | PNone, PNone => true
  | PBool x, PBool y => Bool.eqb x y
  | PBool x, PInt z => (bool_int x =? z)%Z
  | PInt z, PBool y => (z =? bool_int y)%Z
  | PInt x, PInt y => (x =? y)%Z
  | PStr x, PStr y => str_eqb x y
  | PBytes x, PBytes y => str_eqb x y
  | PList la, PList lb =>
      (fix go (la : list pyval) (lb : list pyval) : bool :=
         match la, lb with
         | [], [] => true
         | x :: la', y :: lb' => py_eq x y && go la' lb'
         | _, _ => false
         end) la lb
  | PDict da, PDict db =>
      (length da =? length db)%nat &&
      (fix go (da : list (pystr * pyval)) : bool :=
         match da with
         | [] => true
         | (k, va) :: da' =>
             match dict_get k db with
             | Some vb => py_eq va vb && go da'
             | None => false
             end
         end) da
  | _, _ => false
  end.

(** ** [json.dumps(value, cls=DjangoJSONEncoder, sort_keys=True, indent=2,
       separators=(',', ': '))] *)

(** One lower-case hexadecimal digit, as [format(n, 'x')] prints it. *)
Definition hex_digit (n : N) : N := if n <? 10 then 48 + n else 87 + n.

(** ['\\u{0:04x}'.format(n)] for [n < 0x10000]. *)
Definition u_escape (n : N) : pystr :=
  [92; 117; hex_digit (n / 4096); hex_digit ((n / 256) mod 16);
   hex_digit ((n / 16) mod 16); hex_digit (n mod 16)].

(** The replacement of one character in [py_encode_basestring_ascii]:
    the table [ESCAPE_DCT], then printable ASCII as it is, then [\uXXXX],
    with a surrogate pair above the basic plane. *)
Definition escape_char (c : N) : pystr :=
  if c =? 92 then [92; 92]
  else if c =? 34 then [92; 34]
  else if c =? 8 then [92; 98]
  else if c =? 12 then [92; 102]
  else if c =? 10 then [92; 110]
  else if c =? 13 then [92; 114]
  else if c =? 9 then [92; 116]
  else if (32 <=? c) && (c <=? 126) then [c]
  else if c <? 65536 then u_escape c
  else
    let n := c - 65536 in
    u_escape (N.lor 55296 (N.land (N.shiftr n 10) 1023)) ++
    u_escape (N.lor 56320 (N.land n 1023)).

Definition encode_basestring_ascii (s : pystr) : pystr :=
  34 :: flat_map escape_char s ++ [34].

Fixpoint uint_chars (d : Decimal.uint) : pystr :=
  match d with
  | Nil => []
  | D0 d => 48 :: uint_chars d
  | D1 d => 49 :: uint_chars d
  | D2 d => 50 :: uint_chars d
  | D3 d => 51 :: uint_chars d
  | D4 d => 52 :: uint_chars d
  | D5 d => 53 :: uint_chars d
  | D6 d => 54 :: uint_chars d
  | D7 d => 55 :: uint_chars d
  | D8 d => 56 :: uint_chars d
  | D9 d => 57 :: uint_chars d
  end.

(** [int.__repr__]. *)
Definition int_repr (z : Z) : pystr :=
  match Z.to_int z with
  | Decimal.Pos d => uint_chars d
  | Decimal.Neg d => 45 :: uint_chars d
  end.

(** Code point order on [str], the order [sorted] uses on the keys. *)
Fixpoint str_leb (a b : pystr) : bool :=
  match a, b with
  | [], _ => true
  | _ :: _, [] => false
  | x :: a', y :: b' => if x <? y then true else if y <? x then false else str_leb a' b'
  end.

Fixpoint insert_item {V} (kv : pystr * V) (l : list (pystr * V)) : list (pystr * V) :=
  match l with
  | [] => [kv]
  | kv' :: l' =>
      if str_leb (fst kv) (fst kv') then kv :: l else kv' :: insert_item kv l'
  end.

(** [sorted(dct.items())]: the keys of a dict are distinct, so the order of
    the items is the order of their keys. *)
Fixpoint sort_items {V} (l : list (pystr * V)) : list (pystr * V) :=
  match l with
  | [] => []
  | kv :: l' => insert_item kv (sort_items l')
  end.

(** ['\n' + ' ' * (2 * level)]. *)
Definition newline_indent (lvl : nat) : pystr := 10 :: repeat 32 (2 * lvl)%nat.

Fixpoint join (sep : pystr) (l : list pystr) : pystr :=
  match l with
  | [] => []
  | [x] => x
  | x :: l' => x ++ sep ++ join sep l'
  end.

(** The chunks of a non-empty list or dict at nesting level [lvl], between
    the brackets [o] and [c]. *)
Definition encode_container (o c : N) (lvl : nat) (chunks : list pystr) : pystr :=
  match chunks with
  | [] => [o; c]
  | _ =>
      o :: newline_indent (S lvl) ++
      join (44 :: newline_indent (S lvl)) chunks ++
      newline_indent lvl ++ [c]
  end.

(** One item of a dict: the key in quotes, the key separator, the value. *)
Definition item_text (key chunk : pystr) : pystr :=
  encode_basestring_ascii key ++ [58; 32] ++ chunk.

Definition encode_item (kc : pystr * outcome pystr) : outcome pystr :=
  c ← snd kc; Return (item_text (fst kc) c).

(** [_iterencode] at nesting level [lvl].  A [bytes] value reaches
    [DjangoJSONEncoder.default], which raises [TypeError]. *)
Fixpoint iterencode (lvl : nat) (v : pyval) {struct v} : outcome pystr :=
  match v with
  | PNone => Return (str "null")
  | PBool true => Return (str "true")
  | PBool false => Return (str "false")
  | PInt z => Return (int_repr z)
  | PStr s => Return (encode_basestring_ascii s)
  | PBytes _ => Raise TypeError
  | PList l =>
      chunks ← osequence (List.map (iterencode (S lvl)) l);
      Return (encode_container 91 93 lvl chunks)
  | PDict d =>
      chunks ← osequence
        (List.map encode_item
           (sort_items (List.map (fun kv => (fst kv, iterencode (S lvl) (snd kv))) d)));
      Return (encode_container 123 125 lvl chunks)
  end.

(** The local function [dumps] of [JSONField.__init__]. *)
Definition dumps (value : pyval) : outcome pyval :=
  s ← iterencode 0 value; Return (PStr s).

(** ** [json.loads(value)] *)

(** The decoder reads its input from left to right; a scanner returns the
    value it read and the rest of the input after it. *)

Definition is_ws (c : N) : bool :=
  (c =? 32) || (c =? 9) || (c =? 10) || (c =? 13).

(** [WHITESPACE.match(s, end).end()]. *)
Fixpoint skip_ws (s : pystr) : pystr :=
  match s with
  | c :: s' => if is_ws c then skip_ws s' else s
  | [] => []
  end.

(** [s[idx:idx + len(p)] == p], with the input after the prefix. *)
Fixpoint strip_prefix (p s : pystr) : option pystr :=
  match p, s with
  | [], _ => Some s
  | x :: p', y :: s' => if x =? y then strip_prefix p' s' else None
  | _ :: _, [] => None
  end.

(** [s.startswith(p)]. *)
Definition starts_with (p s : pystr) : bool :=
  match strip_prefix p s with
  | Some _ => true
  | None => false
  end.

Definition hex_value (c : N) : option N :=
  if (48 <=? c) && (c <=? 57) then Some (c - 48)
  else if (97 <=? c) && (c <=? 102) then Some (c - 87)
  else if (65 <=? c) && (c <=? 70) then Some (c - 55)
  else None.

(** [_decode_uXXXX]: the four hexadecimal digits after [\u]. *)
Definition decode_uXXXX (s : pystr) : outcome (N * pystr) :=
  match s with
  | a :: b :: c :: d :: s' =>
      match hex_value a, hex_value b, hex_value c, hex_value d with
      | Some x3, Some x2, Some x1, Some x0 =>
          Return (((x3 * 16 + x2) * 16 + x1) * 16 + x0, s')
      | _, _, _, _ => Raise JSONDecodeError
      end
  | _ => Raise JSONDecodeError
  end.

(** The table [BACKSLASH]. *)
Definition backslash (esc : N) : option N :=
  if esc =? 34 then Some 34
  else if esc =? 92 then Some 92
  else if esc =? 47 then Some 47
  else if esc =? 98 then Some 8
  else if esc =? 102 then Some 12
  else if esc =? 110 then Some 10
  else if esc =? 114 then Some 13
  else if esc =? 116 then Some 9
  else None.

(** [scanstring(s, end, strict=True)], from the character after the opening
    quote.  [fuel] bounds the number of characters and escapes read; more
    fuel than the input has characters is enough. *)
Fixpoint scanstring (fuel : nat) (s : pystr) : outcome (pystr * pystr) :=
  match fuel with
  | O => Unmodelled
  | S fuel' =>
      match s with
      | [] => Raise JSONDecodeError
      | c :: s1 =>
          if c =? 34 then Return ([], s1)
          else if c <? 32 then Raise JSONDecodeError
          else if c =? 92 then
            match s1 with
            | [] => Raise JSONDecodeError
            | esc :: s2 =>
                if esc =? 117 then
                  '(uni, s3) ← decode_uXXXX s2;
                  '(char, s4) ←
                    (if (55296 <=? uni) && (uni <=? 56319) then
                       match strip_prefix [92; 117] s3 with
                       | Some s3' =>
                           '(uni2, s5) ← decode_uXXXX s3';
                           if (56320 <=? uni2) && (uni2 <=? 57343) then
                             Return (65536 + N.lor (N.shiftl (uni - 55296) 10) (uni2 - 56320), s5)
                           else Return (uni, s3)
                       | None => Return (uni, s3)
                       end
                     else Return (uni, s3));
                  '(t, r) ← scanstring fuel' s4;
                  Return (char :: t, r)
                else
                  match backslash esc with
                  | Some char =>
                      '(t, r) ← scanstring fuel' s2;
                      Return (char :: t, r)
                  | None => Raise JSONDecodeError
                  end
            end
          else
            '(t, r) ← scanstring fuel' s1;
            Return (c :: t, r)
      end
  end.

Definition is_digit (c : N) : bool := (48 <=? c) && (c <=? 57).

Definition digit_of (c : N) (d : Decimal.uint) : Decimal.uint :=
  if c =? 48 then D0 d else if c =? 49 then D1 d else if c =? 50 then D2 d
  else if c =? 51 then D3 d else if c =? 52 then D4 d else if c =? 53 then D5 d
  else if c =? 54 then D6 d else if c =? 55 then D7 d else if c =? 56 then D8 d
  else D9 d.

(** The longest run of digits. *)
Fixpoint span_digits (s : pystr) : Decimal.uint * pystr :=
  match s with
  | c :: s' =>
      if is_digit c then let '(d, r) := span_digits s' in (digit_of c d, r)
      else (Nil, s)
  | [] => (Nil, [])
  end.

(** The integer group of [NUMBER_RE]: a single [0], or a digit from 1 to 9
    and then the longest run of digits. *)
Definition match_integer (s : pystr) : option (Decimal.uint * pystr) :=
  match s with
  | c :: s' =>
      if c =? 48 then Some (D0 Nil, s')
      else if is_digit c then Some (span_digits s)
      else None
  | [] => None
  end.

(** Whether the optional fraction group matches: a dot and a digit. *)
Definition has_frac (s : pystr) : bool :=
  match s with
  | 46 :: c :: _ => is_digit c
  | _ => false
  end.

(** Whether the optional exponent group matches: [e] or [E], an optional
    sign, and a digit. *)
Definition has_exp (s : pystr) : bool :=
  match s with
  | e :: s' =>
      ((e =? 101) || (e =? 69)) &&
      match s' with
      | c :: s'' =>
          if (c =? 45) || (c =? 43)
          then match s'' with c' :: _ => is_digit c' | [] => false end
          else is_digit c
      | [] => false
      end
  | [] => false
  end.

(** [match_number]: [None] when [NUMBER_RE] does not match; a literal with a
    fraction or an exponent goes to [parse_float], outside the model. *)
Definition match_number (s : pystr) : option (outcome (pyval * pystr)) :=
  let '(neg, s0) :=
    match s with
    | c :: s' => if c =? 45 then (true, s') else (false, s)
    | [] => (false, s)
    end in
  match match_integer s0 with
  | None => None
  | Some (d, r) =>
      Some (if has_frac r || has_exp r
            then Unmodelled
            else Return (PInt (Z.of_int (if neg then Decimal.Neg d else Decimal.Pos d)), r))
  end.

(** [dict(pairs)]: a later pair with a key already present replaces the
    value and keeps the place of the first. *)
Fixpoint dict_set (k : pystr) (v : pyval) (d : list (pystr * pyval)) : list (pystr * pyval) :=
  match d with
  | [] => [(k, v)]
  | (k', v') :: d' => if str_eqb k k' then (k', v) :: d' else (k', v') :: dict_set k v d'
  end.

Definition dict_of_pairs (pairs : list (pystr * pyval)) : list (pystr * pyval) :=
  fold_left (fun d kv => dict_set (fst kv) (snd kv) d) pairs [].

Section Scanner.

(** [scan_once], as [JSONArray] and [JSONObject] receive it. *)
Variable scan_once : pystr -> outcome (pyval * pystr).

(** The loop of [JSONArray], from the position of a value. *)
Fixpoint array_loop (n : nat) (s : pystr) : outcome (list pyval * pystr) :=
  match n with
  | O => Unmodelled
  | S n' =>
      '(value, s1) ← scan_once s;
      match skip_ws s1 with
      | c :: s2 =>
          if c =? 93 then Return ([value], s2)
          else if c =? 44 then
            '(values, r) ← array_loop n' (skip_ws s2);
            Return (value :: values, r)
          else Raise JSONDecodeError
      | [] => Raise JSONDecodeError
      end
  end.

(** [JSONArray], from the character after the opening bracket. *)
Definition JSONArray (n : nat) (s : pystr) : outcome (pyval * pystr) :=
  match skip_ws s with
  | c :: s1 =>
      if c =? 93 then Return (PList [], s1)
      else '(values, r) ← array_loop n (c :: s1); Return (PList values, r)
  | [] => '(values, r) ← array_loop n []; Return (PList values, r)
  end.

(** The loop of [JSONObject], from the character after the opening quote
    of a key. *)
Fixpoint object_loop (n : nat) (s : pystr) : outcome (list (pystr * pyval) * pystr) :=
  match n with
  | O => Unmodelled
  | S n' =>
      '(key, s1) ← scanstring (S (length s)) s;
      match skip_ws s1 with
      | c :: s2 =>
          if c =? 58 then
            '(value, s3) ← scan_once (skip_ws s2);
            match skip_ws s3 with
            | c' :: s4 =>
                if c' =? 125 then Return ([(key, value)], s4)
                else if c' =? 44 then
                  match skip_ws s4 with
                  | c'' :: s5 =>
                      if c'' =? 34 then
                        '(pairs, r) ← object_loop n' s5;
                        Return ((key, value) :: pairs, r)
                      else Raise JSONDecodeError
                  | [] => Raise JSONDecodeError
                  end
                else Raise JSONDecodeError
            | [] => Raise JSONDecodeError
            end
          else Raise JSONDecodeError
      | [] => Raise JSONDecodeError
      end
  end.

(** [JSONObject], from the character after the opening brace. *)
Definition JSONObject (n : nat) (s : pystr) : outcome (pyval * pystr) :=
  match skip_ws s with
  | c :: s1 =>
      if c =? 125 then Return (PDict [], s1)
      else if c =? 34 then
        '(pairs, r) ← object_loop n s1;
        Return (PDict (dict_of_pairs pairs), r)
      else Raise JSONDecodeError
  | [] => Raise JSONDecodeError
  end.

End Scanner.

(** Strip the keyword [kw] and return the constant [v]. *)
Definition scan_keyword (kw : string) (v : pyval) (s : pystr) : option (pyval * pystr) :=
  match strip_prefix (str kw) s with
  | Some r => Some (v, r)
  | None => None
  end.

(** [_scan_once].  A [StopIteration] becomes the [JSONDecodeError] that every
    caller turns it into; [NaN], [Infinity] and [-Infinity] are floats.
    [fuel] bounds the nesting depth and the number of items of a container. *)
Fixpoint scan_once (fuel : nat) (s : pystr) {struct fuel} : outcome (pyval * pystr) :=
  match fuel with
  | O => Unmodelled
  | S fuel' =>
      match s with
      | [] => Raise JSONDecodeError
      | nextchar :: s1 =>
          if nextchar =? 34 then
            '(t, r) ← scanstring (S (length s1)) s1; Return (PStr t, r)
          else if nextchar =? 123 then JSONObject (scan_once fuel') fuel' s1
          else if nextchar =? 91 then JSONArray (scan_once fuel') fuel' s1
          else
            match scan_keyword "null" PNone s with
            | Some r => Return r
            | None =>
            match scan_keyword "true" (PBool true) s with
            | Some r => Return r
            | None =>
            match scan_keyword "false" (PBool false) s with
            | Some r => Return r
            | None =>
            match match_number s with
            | Some r => r
            | None =>
                if starts_with (str "NaN") s
                   || starts_with (str "Infinity") s
                   || starts_with (str "-Infinity") s
                then Unmodelled
                else Raise JSONDecodeError
            end end end end
      end
  end.

(** [json.loads(s)] on a [str]: a leading byte order mark is refused, white
    space around the value is skipped, and nothing may follow. *)
Definition loads (s : pystr) : outcome pyval :=
  if starts_with [65279] s then Raise JSONDecodeError
  else
    '(obj, r) ← scan_once (S (length s)) (skip_ws s);
    match skip_ws r with
    | [] => Return obj
    | _ :: _ => Raise JSONDecodeError
    end.

(** ** [bytes.decode('utf8')] *)

Definition is_cont (b : N) : bool := (128 <=? b) && (b <=? 191).

(** Strict UTF-8: shortest forms only, no surrogates, nothing above
    U+10FFFF; any other byte sequence raises [UnicodeDecodeError]. *)
Fixpoint utf8_decode (b : list N) : outcome pystr :=
  match b with
  | [] => Return []
  | b0 :: r0 =>
      if b0 <? 128 then t ← utf8_decode r0; Return (b0 :: t)
      else
        match r0 with
        | [] => Raise UnicodeDecodeError
        | b1 :: r1 =>
            if (194 <=? b0) && (b0 <=? 223) then
              if is_cont b1
              then t ← utf8_decode r1; Return ((b0 - 192) * 64 + (b1 - 128) :: t)
              else Raise UnicodeDecodeError
            else
              match r1 with
              | [] => Raise UnicodeDecodeError
              | b2 :: r2 =>
                  if (224 <=? b0) && (b0 <=? 239) then
                    if is_cont b1 && is_cont b2
                       && negb ((b0 =? 224) && (b1 <? 160))
                       && negb ((b0 =? 237) && (160 <=? b1))
                    then t ← utf8_decode r2;
                         Return (((b0 - 224) * 64 + (b1 - 128)) * 64 + (b2 - 128) :: t)
                    else Raise UnicodeDecodeError
                  else
                    match r2 with
                    | [] => Raise UnicodeDecodeError
                    | b3 :: r3 =>
                        if (240 <=? b0) && (b0 <=? 244)
                           && is_cont b1 && is_cont b2 && is_cont b3
                           && negb ((b0 =? 240) && (b1 <? 144))
                           && negb ((b0 =? 244) && (144 <=? b1))
                        then t ← utf8_decode r3;
                             Return ((((b0 - 240) * 64 + (b1 - 128)) * 64 + (b2 - 128)) * 64
                                     + (b3 - 128) :: t)
                        else Raise UnicodeDecodeError
                    end
              end
        end
  end.

(** [str.encode('utf8')] of one code point and of a text: what
    [bytes.decode('utf8')] reads. *)
Definition utf8_encode_char (c : N) : list N :=
  if c <? 128 then [c]
  else if c <? 2048 then [192 + c / 64; 128 + c mod 64]
  else if c <? 65536 then [224 + c / 4096; 128 + (c / 64) mod 64; 128 + c mod 64]
  else [240 + c / 262144; 128 + (c / 4096) mod 64; 128 + (c / 64) mod 64; 128 + c mod 64].

Definition utf8_encode (s : pystr) : list N := flat_map utf8_encode_char s.

(** ** [JSONField] *)

(** The [default] attribute of a field: the sentinel [NOT_PROVIDED], a value,
    or a callable of no argument. *)
Inductive default_attr : Type :=
| NOT_PROVIDED
| DefaultValue (v : pyval)
| DefaultCallable (call : unit -> outcome pyval).

Record JSONField : Type := {
  serializer : pyval -> outcome pyval;
  deserializer : pystr -> outcome pyval;
  null : bool;
  default : default_attr;
  attname : string
}.

(** The keyword arguments of [JSONField(...)] that the model reads. *)
Record kwargs : Type := {
  kw_serializer : option (pyval -> outcome pyval);
  kw_deserializer : option (pystr -> outcome pyval);
  kw_null : bool;
  kw_default : default_attr;
  kw_name : string
}.

(** [kwargs.pop(key, dflt)] on an optional keyword argument. *)
Definition kwargs_pop {A} (arg : option A) (dflt : A) : A :=
  match arg with
  | Some a => a
  | None => dflt
  end.

(** [JSONField.__init__]: [kwargs.pop('serializer', dumps)] and
    [kwargs.pop('deserializer', json.loads)]; the rest goes to [TextField]. *)
Definition JSONField_init (kw : kwargs) : JSONField :=
  {| serializer := kwargs_pop (kw_serializer kw) dumps;
     deserializer := kwargs_pop (kw_deserializer kw) loads;
     null := kw_null kw;
     default := kw_default kw;
     attname := kw_name kw |}.

(** [JSONField()]: no keyword argument given. *)
Definition no_kwargs : kwargs :=
  {| kw_serializer := None; kw_deserializer := None; kw_null := false;
     kw_default := NOT_PROVIDED; kw_name := "json" |}.

(** A model instance, as far as a field reads it: its attributes. *)
Definition pyobject := gmap string pyval.

(** [Field.value_from_object]: [getattr(obj, self.attname)]. *)
Definition Field_value_from_object (self : JSONField) (obj : pyobject) : outcome pyval :=
  match obj !! attname self with
  | Some v => Return v
  | None => Raise AttributeError
  end.

Section JSONFieldMethods.

(** The two conversions inherited from [TextField], which belong to the
    framework: [super().get_prep_value] and [super().get_db_prep_save]
    with the extra arguments [args] that are passed through. *)
Context {Args : Type}.
Variable super_get_prep_value : JSONField -> pyval -> outcome pyval.
Variable super_get_db_prep_save : JSONField -> pyval -> Args -> outcome pyval.

(** The body of the [try] block of [to_python]; a value that is neither
    [str] nor [bytes] falls through to [return value]. *)
Definition to_python_try (self : JSONField) (value : pyval) : outcome pyval :=
  match value with
  | PStr s => deserializer self s
  | PBytes b => s ← utf8_decode b; deserializer self s
  | _ => Return value
  end.

Definition to_python (self : JSONField) (value : pyval) : outcome pyval :=
  if py_eq value (PStr []) then Return PNone
  else
    match to_python_try self value with
    | Raise e => if is_ValueError e then Return value else Raise e
    | r => r
    end.

Definition is_dict_or_list (value : pyval) : bool :=
  match value with
  | PDict _ | PList _ => true
  | _ => false
  end.

Definition get_prep_value (self : JSONField) (value : pyval) : outcome pyval :=
  if py_eq value (PStr []) then Return PNone
  else if is_dict_or_list value then serializer self value
  else super_get_prep_value self value.

Definition from_db_value (self : JSONField) (value : pyval) : outcome pyval :=
  to_python self value.

Definition has_default (self : JSONField) : bool :=
  match default self with
  | NOT_PROVIDED => false
  | _ => true
  end.

Definition get_default (self : JSONField) : outcome pyval :=
  if has_default self then
    match default self with
    | DefaultCallable call => call tt
    | DefaultValue v => Return v
    | NOT_PROVIDED => Return (PStr [])
    end
  else Return (PStr []).

Definition get_db_prep_save (self : JSONField) (value : pyval) (args : Args) : outcome pyval :=
  if py_eq value (PStr []) then Return PNone
  else if is_dict_or_list value then serializer self value
  else super_get_db_prep_save self value args.

Definition is_None (value : pyval) : bool :=
  match value with
  | PNone => true
  | _ => false
  end.

Definition value_from_object (self : JSONField) (obj : pyobject) : outcome pyval :=
  value ← Field_value_from_object self obj;
  if null self && is_None value then Return PNone
  else serializer self value.

End JSONFieldMethods.

(** ** [AutoSingleRelatedObjectDescriptor] *)

(** A call that reads and changes a world (the database and the objects in
    memory) and returns or raises. *)
Definition stateful (W A : Type) : Type := W -> outcome A * W.

#[global] Instance stateful_ret {W} : MRet (stateful W) := fun A a w => (Return a, w).

#[global] Instance stateful_bind {W} : MBind (stateful W) := fun A B k m w =>
  match m w with
  | (Return a, w1) => k a w1
  | (Raise e, w1) => (Raise e, w1)
  | (Unmodelled, w1) => (Unmodelled, w1)
  end.

(** [try: body / except E: handler], where [catches] is [isinstance(e, E)]. *)
Definition try_except {W A} (body : stateful W A) (catches : exn -> bool)
    (handler : stateful W A) : stateful W A :=
  fun w =>
    match body w with
    | (Raise e, w1) => if catches e then handler w1 else (Raise e, w1)
    | r => r
    end.

Definition is_DoesNotExist (e : exn) : bool :=
  match e with
  | DoesNotExist => true
  | _ => false
  end.

Section Descriptor.

(** The framework, as the descriptor sees it: the world, model instances,
    related objects, and three operations. *)
Context {World Instance Obj : Type}.

(** [super().__get__(instance, instance_type)], the standard lookup of the
    reverse one-to-one descriptor. *)
Variable super_get : Instance -> stateful World Obj.

(** [model.objects.get_or_create] with its keyword arguments: the object
    and whether it was created. *)
Variable get_or_create : list (string * Instance) -> stateful World (Obj * bool).

(** [rollback before after]: the world after a transaction that started in
    [before] and failed in [after] has been rolled back. *)
Variable rollback : World -> World -> World.

(** The decorator [@atomic]: commit on return, roll back on an exception
    and raise it again. *)
Definition atomic {A} (body : stateful World A) : stateful World A :=
  fun w =>
    match body w with
    | (Raise e, w1) => (Raise e, rollback w w1)
    | r => r
    end.

(** [self.related.field.name]. *)
Variable field_name : string.

Definition __get__ (instance : Instance) : stateful World Obj :=
  atomic
    (try_except (super_get instance) is_DoesNotExist
       (_ ← get_or_create [(field_name, instance)];
        super_get instance)).

End Descriptor.

(** ** The object-relational layer the descriptor runs on

    A database table of the related model and, for every instance of the
    owning model, the cache of its reverse accessor.  The standard lookup
    caches the object it loads; building a related object for an instance
    puts that object in the cache of the instance. *)
Module Django.

(** A row of the related model: its primary key and the fields that were
    given a value when it was created, each holding the primary key of the
    instance it refers to.  Every other field holds its default. *)
Record row : Type := {
  row_pk : nat;
  row_set : gmap string nat
}.

(** An object in memory: its identity and the row it was built from. *)
Record relobj : Type := {
  oid : nat;
  orow : row
}.

(** A saved or unsaved instance of the owning model: its identity in
    memory and its primary key. *)
Record instance : Type := {
  iid : nat;
  ipk : option nat
}.

(** The table of the related model, the next primary key, the next object
    identity, and the cache of the reverse accessor of each instance. *)
Record world : Type := {
  table : list row;
  next_pk : nat;
  next_oid : nat;
  cache : gmap nat relobj
}.

(** Whether a row satisfies the filter [name=k]. *)
Definition row_has (name : string) (k : nat) (r : row) : bool :=
  bool_decide (row_set r !! name = Some k).

(** [QuerySet.get]: the one matching row. *)
Definition get_row (matches : row -> bool) (w : world) : outcome row :=
  match List.filter matches (table w) with
  | [] => Raise DoesNotExist
  | [r] => Return r
  | _ :: _ :: _ => Raise MultipleObjectsReturned
  end.

(** Build an object in memory from a row. *)
Definition instantiate (r : row) (w : world) : relobj * world :=
  ({| oid := next_oid w; orow := r |},
   {| table := table w; next_pk := next_pk w; next_oid := S (next_oid w);
      cache := cache w |}).

Definition set_cached (i : instance) (o : relobj) (w : world) : world :=
  {| table := table w; next_pk := next_pk w; next_oid := next_oid w;
     cache := <[iid i := o]> (cache w) |}.

(** The standard lookup: the cached object if there is one; otherwise the
    row that refers to the instance, built in memory and cached. *)
Definition lookup (name : string) (i : instance) : stateful world relobj :=
  fun w =>
    match cache w !! iid i with
    | Some o => (Return o, w)
    | None =>
        match ipk i with
        | None => (Raise DoesNotExist, w)
        | Some k =>
            match get_row (row_has name k) w with
            | Return r =>
                let '(o, w1) := instantiate r w in (Return o, set_cached i o w1)
            | Raise e => (Raise e, w)
            | Unmodelled => (Unmodelled, w)
            end
        end
    end.

(** The primary keys of the instances in keyword arguments; an unsaved
    instance cannot be used in a query. *)
Fixpoint filter_args (kw : list (string * instance)) : option (list (string * nat)) :=
  match kw with
  | [] => Some []
  | (name, i) :: kw' =>
      match ipk i, filter_args kw' with
      | Some k, Some args => Some ((name, k) :: args)
      | _, _ => None
      end
  end.

Definition row_matches (args : list (string * nat)) (r : row) : bool :=
  forallb (fun a => row_has (fst a) (snd a) r) args.

Definition insert_row (args : list (string * nat)) (w : world) : row * world :=
  let r := {| row_pk := next_pk w; row_set := list_to_map args |} in
  (r, {| table := table w ++ [r]; next_pk := S (next_pk w);
         next_oid := next_oid w; cache := cache w |}).

(** Building a related object from keyword arguments assigns each of them:
    the object becomes the cached related object of every instance given. *)
Definition cache_related (kw : list (string * instance)) (o : relobj) (w : world) : world :=
  fold_left (fun w' a => set_cached (snd a) o w') kw w.

(** [get_or_create]: the matching row if there is one, loaded into a new
    object; otherwise a new object built from the keyword arguments, which
    the instances given cache from then on, and saved as a new row. *)
Definition get_or_create (kw : list (string * instance)) : stateful world (relobj * bool) :=
  fun w =>
    match filter_args kw with
    | None => (Raise ValueError, w)
    | Some args =>
        match get_row (row_matches args) w with
        | Return r => let '(o, w1) := instantiate r w in (Return (o, false), w1)
        | Raise DoesNotExist =>
            let '(r, w1) := insert_row args w in
            let '(o, w2) := instantiate r w1 in
            (Return (o, true), cache_related kw o w2)
        | Raise e => (Raise e, w)
        | Unmodelled => (Unmodelled, w)
        end
    end.

(** Rolling back restores the table; objects in memory stay. *)
Definition rollback (before after : world) : world :=
  {| table := table before; next_pk := next_pk after;
     next_oid := next_oid after; cache := cache after |}.

(** The accessor that [AutoOneToOneField] installs on the owning model. *)
Definition auto_get (name : string) (i : instance) : stateful world relobj :=
  __get__ (lookup name) get_or_create rollback name i.

(** The rows of the related model that refer to the instance with primary
    key [k]. *)
Definition related_rows (name : string) (k : nat) (w : world) : list row :=
  List.filter (row_has name k) (table w).

(** A [get_or_create] that loses against a concurrent writer: the insert
    violates the uniqueness of the relation and the error is raised. *)
Definition get_or_create_conflict (kw : list (string * instance))
    : stateful world (relobj * bool) :=
  fun w => (Raise IntegrityError, w).

(** A saved instance with primary key 1 and an empty related table. *)
Definition alice : instance := {| iid := 0%nat; ipk := Some 1%nat |}.

Definition empty_world : world :=
  {| table := []; next_pk := 1%nat; next_oid := 10%nat; cache := ∅ |}.

(** The related object of [alice] was read, and its row was deleted
    afterwards: the table is empty and the object is still cached. *)
Definition stale_object : relobj :=
  {| oid := 10%nat;
     orow := {| row_pk := 1%nat; row_set := {[ "user"%string := 1%nat ]} |} |}.

Definition stale_world : world :=
  {| table := []; next_pk := 2%nat; next_oid := 11%nat;
     cache := {[ 0%nat := stale_object ]} |}.

End Django.

(** [TextField.get_prep_value]: the value, which [Field.get_prep_value]
    leaves as it is, goes through [self.to_python], and on a [JSONField]
    that is [JSONField.to_python]. *)
Definition TextField_get_prep_value (self : JSONField) (value : pyval) : outcome pyval :=
  to_python self value.

(** [Field.get_db_prep_save]: the value is prepared with
    [self.get_prep_value], and on a [JSONField] that is
    [JSONField.get_prep_value]. *)
Definition TextField_get_db_prep_save (self : JSONField) (value : pyval) (connection : unit)
    : outcome pyval :=
  get_prep_value TextField_get_prep_value self value.

(** ** [JSONField.deconstruct] *)

Section Deconstruct.

(** [super().deconstruct()]: the name of the field, the import path of its
    class, the positional arguments and the keyword arguments that the base
    class reports. *)
Variable super_deconstruct : JSONField -> string * string * list pyval * kwargs.

(** [kwargs['serializer'] = self.serializer] and the same for the
    deserializer; the other entries stay. *)
Definition deconstruct (self : JSONField) : string * string * list pyval * kwargs :=
  let '(name, path, args, kw) := super_deconstruct self in
  (name, path, args,
   {| kw_serializer := Some (serializer self);
      kw_deserializer := Some (deserializer self);
      kw_null := kw_null kw;
      kw_default := kw_default kw;
      kw_name := kw_name kw |}).

End Deconstruct.

(** ** Supported values

    The values the JSON round trip is stated for: [None], [bool], [int],
    [str] made of Unicode scalar values (no lone surrogate code point),
    lists, and dicts whose keys are such strings and distinct. *)

Definition is_scalar (c : N) : bool :=
  (c <? 55296) || ((57343 <? c) && (c <? 1114112)).

Definition text_ok (s : pystr) : bool := forallb is_scalar s.

Fixpoint keys_distinct (ks : list pystr) : bool :=
  match ks with
  | [] => true
  | k :: ks' => negb (existsb (str_eqb k) ks') && keys_distinct ks'
  end.

Fixpoint supported (v : pyval) : bool :=
  match v with
  | PNone | PBool _ | PInt _ => true
  | PStr s => text_ok s
  | PBytes _ => false
  | PList l => forallb supported l
  | PDict d =>
      keys_distinct (List.map fst d) &&
      forallb (fun kv => text_ok (fst kv) && supported (snd kv)) d
  end.

(** The value with the items of every dict in the order of their keys: what
    the decoder builds from the output of the encoder. *)
Fixpoint sort_keys (v : pyval) : pyval :=
  match v with
  | PList l => PList (List.map sort_keys l)
  | PDict d => PDict (sort_items (List.map (fun kv => (fst kv, sort_keys (snd kv))) d))
  | _ => v
  end.

(** What may follow a value in the input for the scanner to stop there: not
    a character that continues a number. *)
Definition ends_number (rest : pystr) : bool :=
  match rest with
  | [] => true
  | c :: _ => negb (is_digit c || (c =? 46) || (c =? 101) || (c =? 69))
  end.

(** The first character of an encoded value: not white space, not a closing
    bracket, not a byte order mark. *)
Definition starts_value (text : pystr) : bool :=
  match text with
  | [] => false
  | c :: _ => negb (is_ws c || (c =? 93) || (c =? 125) || (c =? 65279))
  end.

(** [scans_to text v]: the text starts like a value, and the scanner reads
    [v] from it and stops after it, given fuel for its length. *)
Definition scans_to (text : pystr) (v : pyval) : Prop :=
  starts_value text = true /\
  forall rest fuel, ends_number rest = true -> (length text <= fuel)%nat ->
                    scan_once fuel (text ++ rest) = Return (v, rest).

(** [round_trips v]: at every nesting level the encoder returns a text for
    [v] from which the scanner reads [v] back, its keys in order. *)
Definition round_trips (v : pyval) : Prop :=
  forall lvl, exists text, iterencode lvl v = Return text /\ scans_to text (sort_keys v).


(** [shorter o s]: a scanner that returned on the input [s] has read at
    least one character of it. *)
Definition shorter {A} (o : outcome (A * pystr)) (s : pystr) : Prop :=
  match o with
  | Return (_, r) => (length r < length s)%nat
  | _ => True
  end.

(** ** Induction on values, through the lists of a list and of a dict *)

Section PyvalInduction.

Variable P : pyval -> Prop.
Hypothesis HNone : P PNone.
Hypothesis HBool : forall b, P (PBool b).
Hypothesis HInt : forall z, P (PInt z).
Hypothesis HStr : forall s, P (PStr s).
Hypothesis HBytes : forall b, P (PBytes b).
Hypothesis HList : forall l, Forall P l -> P (PList l).
Hypothesis HDict : forall d, Forall (fun kv => P (snd kv)) d -> P (PDict d).

Fixpoint pyval_ind (v : pyval) : P v :=
  match v with
  | PNone => HNone
  | PBool b => HBool b
  | PInt z => HInt z
  | PStr s => HStr s
  | PBytes b => HBytes b
  | PList l =>
      HList l ((fix go (l : list pyval) : Forall P l :=
                  match l with
                  | [] => List.Forall_nil P
                  | x :: l' => @List.Forall_cons _ P x l' (pyval_ind x) (go l')
                  end) l)
  | PDict d =>
      HDict d ((fix go (d : list (pystr * pyval)) : Forall (fun kv => P (snd kv)) d :=
                  match d with
                  | [] => List.Forall_nil _
                  | kv :: d' => @List.Forall_cons _ (fun kv => P (snd kv)) kv d' (pyval_ind (snd kv)) (go d')
                  end) d)
  end.

End PyvalInduction.

(** * Properties *)

(** [lia] on quotients and remainders by a constant. *)
Ltac Zify.zify_post_hook ::= Z.to_euclidean_division_equations.

(** ** Equality with the empty string *)

Lemma py_eq_empty_str (v : pyval) : py_eq v (PStr []) = true <-> v = PStr [].
Proof.
  split.
  - destruct v as [| | |s| | |]; simpl; try discriminate.
    destruct s; [reflexivity | discriminate].
  - intros ->. reflexivity.
Qed.

Lemma py_eq_nonempty_str (s : pystr) : s <> [] -> py_eq (PStr s) (PStr []) = false.
Proof. destruct s; [congruence | reflexivity]. Qed.

Lemma py_eq_bytes_str (b : list N) (s : pystr) : py_eq (PBytes b) (PStr s) = false.
Proof. reflexivity. Qed.

(** ** Reading: [to_python] and [from_db_value] *)

Lemma loads_empty : loads [] = Raise JSONDecodeError.
Proof. reflexivity. Qed.

(** C3 as stated fails on the empty string: the default deserializer raises
    a [JSONDecodeError] on it, and the read conversion returns [None], not
    the string. *)
Lemma to_python_decode_failure_empty :
  ~ (forall (self : JSONField) (s : pystr) (e : exn),
       deserializer self s = Raise e -> is_ValueError e = true ->
       to_python self (PStr s) = Return (PStr s)).
Proof.
  intros H.
  specialize (H (JSONField_init no_kwargs) [] JSONDecodeError eq_refl eq_refl).
  discriminate H.
Qed.

(** C3, amended: for every stored string [s] other than the empty one on
    which the deserializer raises a [ValueError], [to_python] and
    [from_db_value] return [s] itself and raise nothing. *)
Theorem to_python_decode_failure (self : JSONField) (s : pystr) (e : exn) :
  s <> [] ->
  deserializer self s = Raise e ->
  is_ValueError e = true ->
  to_python self (PStr s) = Return (PStr s) /\
  from_db_value self (PStr s) = Return (PStr s).
Proof.
  intros Hs Hd He.
  unfold from_db_value, to_python.
  rewrite (py_eq_nonempty_str s Hs). simpl.
  rewrite Hd, He. split; reflexivity.
Qed.

Lemma to_python_decode_failure_witness :
  to_python (JSONField_init no_kwargs) (PStr (str "{not json")) = Return (PStr (str "{not json")) /\
  from_db_value (JSONField_init no_kwargs) (PStr (str "{not json")) = Return (PStr (str "{not json")).
Proof.
  apply (to_python_decode_failure (JSONField_init no_kwargs) (str "{not json") JSONDecodeError).
  - discriminate.
  - vm_compute. reflexivity.
  - reflexivity.
Defined.

(** C4: the empty string reads as [None], whatever the deserializer of the
    field would do with it: it is not called. *)
Theorem to_python_empty_string (self : JSONField) :
  to_python self (PStr []) = Return PNone /\
  from_db_value self (PStr []) = Return PNone.
Proof. split; reflexivity. Qed.

(** *** [bytes.decode('utf8')] *)

(** One character written as UTF-8 is read back by [utf8_decode]. *)
Lemma utf8_decode_encode_char (c : N) (rest : list N) :
  is_scalar c = true ->
  utf8_decode (utf8_encode_char c ++ rest) = (t ← utf8_decode rest; Return (c :: t)).
Proof.
  intros Hc. unfold is_scalar in Hc.
  assert (Hs : c < 55296 \/ (57343 < c /\ c < 1114112)).
  { apply orb_true_iff in Hc. destruct Hc as [Hc|Hc].
    - left. apply N.ltb_lt. exact Hc.
    - right. apply andb_true_iff in Hc. destruct Hc as [H1 H2].
      apply N.ltb_lt in H1. apply N.ltb_lt in H2. split; assumption. }
  clear Hc. unfold utf8_encode_char.
  destruct (N.ltb_spec c 128) as [H1|H1].
  { cbn [app utf8_decode]. apply N.ltb_lt in H1. rewrite H1. reflexivity. }
  destruct (N.ltb_spec c 2048) as [H2|H2].
  { cbn [app utf8_decode].
    replace (192 + c / 64 <? 128) with false by (symmetry; apply N.ltb_ge; lia).
    replace ((194 <=? 192 + c / 64) && (192 + c / 64 <=? 223)) with true
      by (symmetry; apply andb_true_iff; split; apply N.leb_le; lia).
    replace (is_cont (128 + c mod 64)) with true
      by (symmetry; apply andb_true_iff; split; apply N.leb_le; lia).
    replace ((192 + c / 64 - 192) * 64 + (128 + c mod 64 - 128)) with c by lia.
    reflexivity. }
  destruct (N.ltb_spec c 65536) as [H3|H3].
  { cbn [app utf8_decode].
    replace (224 + c / 4096 <? 128) with false by (symmetry; apply N.ltb_ge; lia).
    replace ((194 <=? 224 + c / 4096) && (224 + c / 4096 <=? 223)) with false
      by (symmetry; apply andb_false_iff; right; apply N.leb_gt; lia).
    replace ((224 <=? 224 + c / 4096) && (224 + c / 4096 <=? 239)) with true
      by (symmetry; apply andb_true_iff; split; apply N.leb_le; lia).
    replace (is_cont (128 + (c / 64) mod 64)) with true
      by (symmetry; apply andb_true_iff; split; apply N.leb_le; lia).
    replace (is_cont (128 + c mod 64)) with true
      by (symmetry; apply andb_true_iff; split; apply N.leb_le; lia).
    replace ((224 + c / 4096 =? 224) && (128 + (c / 64) mod 64 <? 160)) with false.
    2:{ symmetry. apply andb_false_iff.
        destruct (N.eqb_spec (224 + c / 4096) 224) as [E|E]; [right | left; reflexivity].
        apply N.ltb_ge. lia. }
    replace ((224 + c / 4096 =? 237) && (160 <=? 128 + (c / 64) mod 64)) with false.
    2:{ symmetry. apply andb_false_iff.
        destruct (N.eqb_spec (224 + c / 4096) 237) as [E|E]; [right | left; reflexivity].
        apply N.leb_gt. lia. }
    cbn [andb negb].
    replace (((224 + c / 4096 - 224) * 64 + (128 + (c / 64) mod 64 - 128)) * 64
             + (128 + c mod 64 - 128)) with c by lia.
    reflexivity. }
  cbn [app utf8_decode].
  replace (240 + c / 262144 <? 128) with false by (symmetry; apply N.ltb_ge; lia).
  replace ((194 <=? 240 + c / 262144) && (240 + c / 262144 <=? 223)) with false
    by (symmetry; apply andb_false_iff; right; apply N.leb_gt; lia).
  replace ((224 <=? 240 + c / 262144) && (240 + c / 262144 <=? 239)) with false
    by (symmetry; apply andb_false_iff; right; apply N.leb_gt; lia).
  replace ((240 <=? 240 + c / 262144) && (240 + c / 262144 <=? 244)) with true
    by (symmetry; apply andb_true_iff; split; apply N.leb_le; lia).
  replace (is_cont (128 + (c / 4096) mod 64)) with true
    by (symmetry; apply andb_true_iff; split; apply N.leb_le; lia).
  replace (is_cont (128 + (c / 64) mod 64)) with true
    by (symmetry; apply andb_true_iff; split; apply N.leb_le; lia).
  replace (is_cont (128 + c mod 64)) with true
    by (symmetry; apply andb_true_iff; split; apply N.leb_le; lia).
  replace ((240 + c / 262144 =? 240) && (128 + (c / 4096) mod 64 <? 144)) with false.
  2:{ symmetry. apply andb_false_iff.
      destruct (N.eqb_spec (240 + c / 262144) 240) as [E|E]; [right | left; reflexivity].
      apply N.ltb_ge. lia. }
  replace ((240 + c / 262144 =? 244) && (144 <=? 128 + (c / 4096) mod 64)) with false.
  2:{ symmetry. apply andb_false_iff.
      destruct (N.eqb_spec (240 + c / 262144) 244) as [E|E]; [right | left; reflexivity].
      apply N.leb_gt. lia. }
  cbn [andb negb].
  replace ((((240 + c / 262144 - 240) * 64 + (128 + (c / 4096) mod 64 - 128)) * 64
            + (128 + (c / 64) mod 64 - 128)) * 64 + (128 + c mod 64 - 128)) with c by lia.
  reflexivity.
Qed.

(** [bytes.decode('utf8')] reads the UTF-8 form of a text back. *)
Lemma utf8_decode_encode (s : pystr) :
  text_ok s = true -> utf8_decode (utf8_encode s) = Return s.
Proof.
  induction s as [|c s IH]; intros Hs; [reflexivity|].
  simpl in Hs. apply andb_true_iff in Hs. destruct Hs as [Hc Hs].
  change (utf8_encode (c :: s)) with (utf8_encode_char c ++ utf8_encode s).
  rewrite (utf8_decode_encode_char c _ Hc), (IH Hs). reflexivity.
Qed.

(** [utf8_decode] returns or raises a [UnicodeDecodeError]. *)
Lemma utf8_decode_raises (n : nat) :
  forall b : list N, (length b <= n)%nat ->
    match utf8_decode b with
    | Return _ => True
    | Raise e => e = UnicodeDecodeError
    | Unmodelled => False
    end.
Proof.
  induction n as [|n IH]; intros b Hb.
  - destruct b; [exact I | simpl in Hb; lia].
  - assert (Hrec : forall (c : N) (r : list N), (length r <= n)%nat ->
              match (t ← utf8_decode r; Return (c :: t)) with
              | Return _ => True
              | Raise e => e = UnicodeDecodeError
              | Unmodelled => False
              end).
    { intros c r Hr. specialize (IH r Hr).
      destruct (utf8_decode r); simpl; [exact I | exact IH | exact IH]. }
    destruct b as [|b0 r0]; [exact I|]. cbn [utf8_decode]. simpl in Hb.
    destruct (b0 <? 128); [apply Hrec; lia|].
    destruct r0 as [|b1 r1]; [reflexivity|]. simpl in Hb.
    destruct ((194 <=? b0) && (b0 <=? 223)).
    { destruct (is_cont b1); [apply Hrec; lia | reflexivity]. }
    destruct r1 as [|b2 r2]; [reflexivity|]. simpl in Hb.
    destruct ((224 <=? b0) && (b0 <=? 239)).
    { match goal with |- context [if ?c then _ else _] => destruct c end;
        [apply Hrec; lia | reflexivity]. }
    destruct r2 as [|b3 r3]; [reflexivity|]. simpl in Hb.
    match goal with |- context [if ?c then _ else _] => destruct c end;
      [apply Hrec; lia | reflexivity].
Qed.

(** C10: [bytes] are decoded as UTF-8 and the text goes to the deserializer:
    the UTF-8 form of a text is read like the text, and a [ValueError] of
    the deserializer gives the bytes back; bytes that are not UTF-8 come back
    unchanged.  A value that is neither [str] nor [bytes] is returned as it
    is, whatever the deserializer. *)
Theorem to_python_other_types (self : JSONField) :
  (forall s : pystr, text_ok s = true ->
     to_python self (PBytes (utf8_encode s)) =
     match deserializer self s with
     | Raise e => if is_ValueError e then Return (PBytes (utf8_encode s)) else Raise e
     | r => r
     end) /\
  (forall (b : list N) (e : exn),
     utf8_decode b = Raise e -> to_python self (PBytes b) = Return (PBytes b)) /\
  (forall b : list N,
     to_python self (PBytes b) =
     match utf8_decode b with
     | Return s =>
         match deserializer self s with
         | Raise e => if is_ValueError e then Return (PBytes b) else Raise e
         | r => r
         end
     | Raise e => if is_ValueError e then Return (PBytes b) else Raise e
     | Unmodelled => Unmodelled
     end) /\
  (forall v : pyval,
     match v with
     | PStr _ | PBytes _ => True
     | _ => to_python self v = Return v
     end).
Proof.
  assert (Hb : forall b : list N,
     to_python self (PBytes b) =
     match utf8_decode b with
     | Return s =>
         match deserializer self s with
         | Raise e => if is_ValueError e then Return (PBytes b) else Raise e
         | r => r
         end
     | Raise e => if is_ValueError e then Return (PBytes b) else Raise e
     | Unmodelled => Unmodelled
     end).
  { intros b. unfold to_python. rewrite py_eq_bytes_str. simpl.
    destruct (utf8_decode b) as [s|e|]; reflexivity. }
  split; [|split; [|split]].
  - intros s Hs. rewrite Hb, (utf8_decode_encode s Hs). reflexivity.
  - intros b e He. rewrite Hb, He.
    pose proof (utf8_decode_raises (length b) b (le_n _)) as Hr.
    rewrite He in Hr. subst e. reflexivity.
  - exact Hb.
  - intros v. destruct v; try exact I; reflexivity.
Qed.

Lemma to_python_other_types_witness :
  to_python (JSONField_init no_kwargs) (PBytes (utf8_encode [91; 34; 233; 8364; 128512; 34; 93]))
    = Return (PList [PStr [233; 8364; 128512]]) /\
  to_python (JSONField_init no_kwargs) (PBytes (utf8_encode [233]))
    = Return (PBytes (utf8_encode [233])) /\
  to_python (JSONField_init no_kwargs) (PBytes [255]) = Return (PBytes [255]).
Proof.
  destruct (to_python_other_types (JSONField_init no_kwargs)) as [Henc [Hbad _]].
  split; [|split].
  - exact (eq_trans (Henc [91; 34; 233; 8364; 128512; 34; 93] eq_refl) eq_refl).
  - exact (eq_trans (Henc [233] eq_refl) eq_refl).
  - apply (Hbad [255] UnicodeDecodeError). reflexivity.
Defined.

Example to_python_bytes_json :
  to_python (JSONField_init no_kwargs) (PBytes (str "[1, 2]")) = Return (PList [PInt 1; PInt 2]).
Proof. vm_compute. reflexivity. Qed.

Example to_python_bytes_not_utf8 :
  to_python (JSONField_init no_kwargs) (PBytes [255]) = Return (PBytes [255]).
Proof. vm_compute. reflexivity. Qed.

Example to_python_empty_bytes :
  to_python (JSONField_init no_kwargs) (PBytes []) = Return (PBytes []).
Proof. vm_compute. reflexivity. Qed.

(** ** Writing: [get_prep_value] and [get_db_prep_save] *)

(** C5 as stated fails on a string that is not JSON: it goes unchanged to
    the text conversion, which returns it as it is, so what is stored is
    neither the empty string nor a JSON text. *)
Lemma get_prep_value_not_json :
  ~ (forall (self : JSONField) (value r : pyval),
       get_prep_value TextField_get_prep_value self value = Return r ->
       r = PStr [] \/ exists s v, r = PStr s /\ loads s = Return v).
Proof.
  intros H.
  destruct (H (JSONField_init no_kwargs) (PStr (str "abc")) (PStr (str "abc")) eq_refl)
    as [H0 | (s & v & Hs & Hl)].
  - discriminate H0.
  - injection Hs as <-. vm_compute in Hl. discriminate Hl.
Qed.

(** C5, amended: on write the empty string becomes [None]; a dict or a list
    is encoded with the serializer of the field; every other value goes
    unchanged to the text conversion of the base class, whose result is what
    is stored.  The conversions of the framework end in [to_python] of the
    field, so such a value is stored as [to_python] reads it. *)
Theorem get_prep_value_cases {Args : Type}
    (base_prep : JSONField -> pyval -> outcome pyval)
    (base_save : JSONField -> pyval -> Args -> outcome pyval)
    (self : JSONField) (args : Args) :
  (get_prep_value base_prep self (PStr []) = Return PNone /\
   get_db_prep_save base_save self (PStr []) args = Return PNone) /\
  (forall value, is_dict_or_list value = true ->
     get_prep_value base_prep self value = serializer self value /\
     get_db_prep_save base_save self value args = serializer self value) /\
  (forall value, value <> PStr [] -> is_dict_or_list value = false ->
     get_prep_value base_prep self value = base_prep self value /\
     get_db_prep_save base_save self value args = base_save self value args) /\
  (forall value, is_dict_or_list value = false ->
     get_prep_value TextField_get_prep_value self value = to_python self value /\
     get_db_prep_save TextField_get_db_prep_save self value tt = to_python self value).
Proof.
  split; [split; reflexivity|]. split; [|split].
  - intros value Hv. unfold get_prep_value, get_db_prep_save.
    destruct value; try discriminate Hv; split; reflexivity.
  - intros value Hne Hv. unfold get_prep_value, get_db_prep_save.
    destruct (py_eq value (PStr [])) eqn:E.
    + apply py_eq_empty_str in E. contradiction.
    + rewrite Hv. split; reflexivity.
  - intros value Hv.
    assert (H : get_prep_value TextField_get_prep_value self value = to_python self value).
    { unfold get_prep_value, TextField_get_prep_value.
      destruct (py_eq value (PStr [])) eqn:E.
      - apply py_eq_empty_str in E. subst value. reflexivity.
      - rewrite Hv. reflexivity. }
    split; [exact H|].
    unfold get_db_prep_save, TextField_get_db_prep_save. rewrite H, Hv.
    destruct (py_eq value (PStr [])) eqn:E; [|reflexivity].
    apply py_eq_empty_str in E. subst value. reflexivity.
Qed.

Lemma get_prep_value_cases_witness :
  (get_prep_value TextField_get_prep_value (JSONField_init no_kwargs) (PList [PInt 1])
     = Return (PStr (str "[
  1
]")) /\
   get_db_prep_save TextField_get_db_prep_save (JSONField_init no_kwargs) (PList [PInt 1]) tt
     = Return (PStr (str "[
  1
]"))) /\
  (get_prep_value TextField_get_prep_value (JSONField_init no_kwargs) (PInt 7)
     = Return (PInt 7) /\
   get_db_prep_save TextField_get_db_prep_save (JSONField_init no_kwargs) (PInt 7) tt
     = Return (PInt 7)) /\
  (get_prep_value TextField_get_prep_value (JSONField_init no_kwargs) (PStr (str "abc"))
     = Return (PStr (str "abc")) /\
   get_db_prep_save TextField_get_db_prep_save (JSONField_init no_kwargs) (PStr (str "abc")) tt
     = Return (PStr (str "abc"))).
Proof.
  destruct (get_prep_value_cases TextField_get_prep_value TextField_get_db_prep_save
              (JSONField_init no_kwargs) tt) as [_ [Henc [Hpass Hreal]]].
  split; [|split].
  - apply (Henc (PList [PInt 1])). reflexivity.
  - apply (Hpass (PInt 7)); [discriminate | reflexivity].
  - apply (Hreal (PStr (str "abc"))). reflexivity.
Defined.

(** ** [get_default] *)

(** C6 as stated fails for a field without a default: its [default]
    attribute is the sentinel [NOT_PROVIDED], and [get_default] returns the
    empty string, not a structured value such as the empty dict. *)
Lemma get_default_not_provided :
  has_default (JSONField_init no_kwargs) = false /\
  default (JSONField_init no_kwargs) = NOT_PROVIDED /\
  get_default (JSONField_init no_kwargs) = Return (PStr []) /\
  get_default (JSONField_init no_kwargs) <> Return (PDict []).
Proof. repeat split. discriminate. Qed.

(** C6, amended: [get_default] returns a configured default as it is, or the
    result of calling it when it is callable, never through the serializer;
    for a field without a default it returns the empty string. *)
Theorem get_default_raw (self : JSONField) :
  (forall v, default self = DefaultValue v -> get_default self = Return v) /\
  (forall call, default self = DefaultCallable call -> get_default self = call tt) /\
  (has_default self = false -> get_default self = Return (PStr [])).
Proof.
  unfold get_default, has_default. repeat split.
  - intros v ->. reflexivity.
  - intros call ->. reflexivity.
  - intros H. rewrite H. reflexivity.
Qed.

(** ** [value_from_object] *)

(** C7: the attribute value goes through the serializer, [None] included,
    unless the field is nullable and the value is [None]: then [None] is
    returned and the serializer is not called. *)
Theorem value_from_object_serializes (self : JSONField) (obj : pyobject) (value : pyval) :
  obj !! attname self = Some value ->
  (null self = true -> value = PNone -> value_from_object self obj = Return PNone) /\
  (null self = false \/ value <> PNone -> value_from_object self obj = serializer self value).
Proof.
  intros Hobj. unfold value_from_object, Field_value_from_object.
  rewrite Hobj. simpl. split.
  - intros -> ->. reflexivity.
  - intros [-> | Hv]; [reflexivity|].
    destruct value; try reflexivity; [congruence | | | | | |];
      rewrite andb_false_r; reflexivity.
Qed.

Lemma get_default_raw_witness :
  get_default (JSONField_init
    {| kw_serializer := None; kw_deserializer := None; kw_null := false;
       kw_default := DefaultValue (PDict []); kw_name := "json" |}) = Return (PDict []) /\
  get_default (JSONField_init
    {| kw_serializer := None; kw_deserializer := None; kw_null := false;
       kw_default := DefaultCallable (fun _ => Return (PList [])); kw_name := "json" |})
    = Return (PList []) /\
  get_default (JSONField_init no_kwargs) = Return (PStr []).
Proof.
  split; [|split].
  - apply (proj1 (get_default_raw _) (PDict [])). reflexivity.
  - apply (proj1 (proj2 (get_default_raw _)) (fun _ => Return (PList []))). reflexivity.
  - apply (proj2 (proj2 (get_default_raw _))). reflexivity.
Defined.

Lemma value_from_object_serializes_witness :
  value_from_object
    (JSONField_init
       {| kw_serializer := None; kw_deserializer := None; kw_null := true;
          kw_default := NOT_PROVIDED; kw_name := "json" |})
    {[ "json"%string := PNone ]} = Return PNone /\
  value_from_object (JSONField_init no_kwargs) {[ "json"%string := PNone ]}
    = Return (PStr (str "null")).
Proof.
  split.
  - refine (proj1 (value_from_object_serializes _ {[ "json"%string := PNone ]} PNone _) _ _);
      reflexivity.
  - refine (proj2 (value_from_object_serializes
                     (JSONField_init no_kwargs) {[ "json"%string := PNone ]} PNone _) _).
    + reflexivity.
    + left. reflexivity.
Defined.

(** ** The auto one-to-one accessor *)

Section DescriptorFacts.

Context {World Instance Obj : Type}.
Variable super_get : Instance -> stateful World Obj.
Variable get_or_create : list (string * Instance) -> stateful World (Obj * bool).
Variable rollback : World -> World -> World.
Variable field_name : string.

Local Abbreviation get := (__get__ super_get get_or_create rollback field_name).

(** A lookup that finds the object returns it; nothing is created. *)
Lemma get_found (i : Instance) (w w1 : World) (o : Obj) :
  super_get i w = (Return o, w1) -> get i w = (Return o, w1).
Proof. intros H. unfold __get__, atomic, try_except. rewrite H. reflexivity. Qed.

(** After a lookup that raised [DoesNotExist] and a creation step that
    returned, the result is that of running the lookup again. *)
Lemma get_created (i : Instance) (w w1 w2 : World) (r : Obj * bool) :
  super_get i w = (Raise DoesNotExist, w1) ->
  get_or_create [(field_name, i)] w1 = (Return r, w2) ->
  get i w = atomic rollback (fun _ => super_get i w2) w.
Proof.
  intros H1 H2. unfold __get__, atomic, try_except. rewrite H1. simpl.
  unfold mbind, stateful_bind. rewrite H2. reflexivity.
Qed.

(** C8: an exception of the creation step reaches the caller, and so does
    every exception of a lookup except the [DoesNotExist] of the first
    one; after a failed creation step nothing more is run, the
    transaction is rolled back. *)
Theorem get_propagates_failures (i : Instance) (w : World) :
  (forall e w1,
     super_get i w = (Raise e, w1) -> is_DoesNotExist e = false ->
     get i w = (Raise e, rollback w w1)) /\
  (forall e w1 w2,
     super_get i w = (Raise DoesNotExist, w1) ->
     get_or_create [(field_name, i)] w1 = (Raise e, w2) ->
     get i w = (Raise e, rollback w w2)) /\
  (forall e r w1 w2 w3,
     super_get i w = (Raise DoesNotExist, w1) ->
     get_or_create [(field_name, i)] w1 = (Return r, w2) ->
     super_get i w2 = (Raise e, w3) ->
     get i w = (Raise e, rollback w w3)).
Proof.
  split; [|split].
  - intros e w1 H He. unfold __get__, atomic, try_except. rewrite H, He. reflexivity.
  - intros e w1 w2 H1 H2. unfold __get__, atomic, try_except. rewrite H1. simpl.
    unfold mbind, stateful_bind. rewrite H2. reflexivity.
  - intros e r w1 w2 w3 H1 H2 H3. rewrite (get_created i w w1 w2 r H1 H2).
    unfold atomic. rewrite H3. reflexivity.
Qed.

End DescriptorFacts.

Lemma get_propagates_failures_witness :
  __get__ (Django.lookup "user") Django.get_or_create_conflict Django.rollback "user"
    Django.alice Django.empty_world
  = (Raise IntegrityError, Django.empty_world).
Proof.
  refine (proj1 (proj2 (get_propagates_failures (Django.lookup "user")
            Django.get_or_create_conflict Django.rollback "user"
            Django.alice Django.empty_world))
            IntegrityError Django.empty_world Django.empty_world _ _);
    reflexivity.
Defined.

Lemma filter_row_matches_single (name : string) (k : nat) (l : list Django.row) :
  List.filter (Django.row_matches [(name, k)]) l = List.filter (Django.row_has name k) l.
Proof.
  apply List.filter_ext. intros r. unfold Django.row_matches. simpl.
  apply andb_true_r.
Qed.

Lemma row_has_new_row (name : string) (k pk : nat) :
  Django.row_has name k {| Django.row_pk := pk; Django.row_set := {[ name := k ]} |} = true.
Proof.
  unfold Django.row_has. simpl. apply bool_decide_eq_true. apply lookup_singleton_eq.
Qed.

(** The creation step on a saved instance without a related row: one row
    with the back-reference, and the object built for it is cached. *)
Lemma get_or_create_new (name : string) (i : Django.instance) (k : nat) (w : Django.world) :
  Django.ipk i = Some k ->
  Django.related_rows name k w = [] ->
  let r := {| Django.row_pk := Django.next_pk w; Django.row_set := {[ name := k ]} |} in
  let built := {| Django.oid := Django.next_oid w; Django.orow := r |} in
  Django.get_or_create [(name, i)] w =
  (Return (built, true),
   {| Django.table := Django.table w ++ [r];
      Django.next_pk := S (Django.next_pk w);
      Django.next_oid := S (Django.next_oid w);
      Django.cache := <[Django.iid i := built]> (Django.cache w) |}).
Proof.
  intros Hpk Hrows r built. unfold Django.related_rows in Hrows.
  unfold Django.get_or_create, Django.get_row. cbn [Django.filter_args]. rewrite Hpk.
  rewrite filter_row_matches_single, Hrows.
  cbn [Django.insert_row Django.instantiate Django.cache_related fold_left snd
       Django.set_cached Django.table Django.next_pk Django.next_oid Django.cache
       list_to_map foldr fst].
  rewrite insert_empty. reflexivity.
Qed.

(** C1 as stated fails when the related object of the instance is still
    cached although its row is gone: the accessor returns the cached object
    and creates no row. *)
Lemma auto_get_cached_without_row :
  ~ (forall (name : string) (i : Django.instance) (k : nat) (w : Django.world),
       Django.ipk i = Some k ->
       Django.related_rows name k w = [] ->
       exists (o : Django.relobj) (w' : Django.world),
         Django.auto_get name i w = (Return o, w') /\
         length (Django.related_rows name k w') = 1%nat).
Proof.
  intros H.
  destruct (H "user"%string Django.alice 1%nat Django.stale_world eq_refl eq_refl)
    as (o & w' & Hget & Hlen).
  assert (E : Django.auto_get "user" Django.alice Django.stale_world
              = (Return Django.stale_object, Django.stale_world)) by reflexivity.
  rewrite E in Hget. injection Hget as _ <-. discriminate Hlen.
Qed.

(** C1, amended: on a saved instance with no related row and nothing cached,
    the accessor adds exactly one row, in which only the back-reference is
    set; what it returns is the result of the second standard lookup, which
    is the object the instance has cached, the one the creation step built;
    and reading again returns that same object and changes nothing. *)
Theorem auto_get_creates_once (name : string) (i : Django.instance) (k : nat)
    (w : Django.world) :
  Django.ipk i = Some k ->
  Django.cache w !! Django.iid i = None ->
  Django.related_rows name k w = [] ->
  let r := {| Django.row_pk := Django.next_pk w; Django.row_set := {[ name := k ]} |} in
  exists (o : Django.relobj) (w' : Django.world),
    Django.auto_get name i w = (Return o, w') /\
    Django.table w' = Django.table w ++ [r] /\
    Django.related_rows name k w' = [r] /\
    (exists built w1 w2,
       Django.lookup name i w = (Raise DoesNotExist, w1) /\
       Django.get_or_create [(name, i)] w1 = (Return (built, true), w2) /\
       Django.lookup name i w2 = (Return o, w') /\
       o = built) /\
    Django.orow o = r /\
    Django.cache w' !! Django.iid i = Some o /\
    Django.auto_get name i w' = (Return o, w').
Proof.
  intros Hpk Hcache Hrows r.
  assert (Hl1 : Django.lookup name i w = (Raise DoesNotExist, w)).
  { unfold Django.related_rows in Hrows.
    unfold Django.lookup, Django.get_row. rewrite Hcache, Hpk, Hrows. reflexivity. }
  pose proof (get_or_create_new name i k w Hpk Hrows) as Hgoc. cbv zeta in Hgoc.
  fold r in Hgoc.
  set (built := {| Django.oid := Django.next_oid w; Django.orow := r |}) in *.
  set (w2 := {| Django.table := Django.table w ++ [r];
                Django.next_pk := S (Django.next_pk w);
                Django.next_oid := S (Django.next_oid w);
                Django.cache := <[Django.iid i := built]> (Django.cache w) |}) in *.
  assert (Hc2 : Django.cache w2 !! Django.iid i = Some built) by apply lookup_insert_eq.
  assert (Hl2 : Django.lookup name i w2 = (Return built, w2)).
  { unfold Django.lookup. rewrite Hc2. reflexivity. }
  assert (Hfilter : List.filter (Django.row_has name k) (Django.table w ++ [r]) = [r]).
  { unfold Django.related_rows in Hrows.
    rewrite List.filter_app, Hrows. simpl. unfold r. rewrite row_has_new_row. reflexivity. }
  exists built, w2. repeat split.
  - unfold Django.auto_get. rewrite (get_created _ _ _ _ i w w w2 (built, true) Hl1 Hgoc).
    unfold atomic. rewrite Hl2. reflexivity.
  - exact Hfilter.
  - exists built, w, w2. repeat split; assumption.
  - exact Hc2.
  - unfold Django.auto_get. apply get_found. exact Hl2.
Qed.

Lemma auto_get_creates_once_witness :
  let r := {| Django.row_pk := 1%nat; Django.row_set := {[ "user"%string := 1%nat ]} |} in
  exists (o : Django.relobj) (w' : Django.world),
    Django.auto_get "user" Django.alice Django.empty_world = (Return o, w') /\
    Django.table w' = [r] /\
    Django.related_rows "user" 1 w' = [r] /\
    (exists built w1 w2,
       Django.lookup "user" Django.alice Django.empty_world = (Raise DoesNotExist, w1) /\
       Django.get_or_create [("user"%string, Django.alice)] w1 = (Return (built, true), w2) /\
       Django.lookup "user" Django.alice w2 = (Return o, w') /\
       o = built) /\
    Django.orow o = r /\
    Django.cache w' !! Django.iid Django.alice = Some o /\
    Django.auto_get "user" Django.alice w' = (Return o, w').
Proof.
  apply (auto_get_creates_once "user" Django.alice 1 Django.empty_world); reflexivity.
Defined.

(** ** The JSON round trip *)

Lemma hex_value_digit (d : N) : d < 16 -> hex_value (hex_digit d) = Some d.
Proof.
  intros H. unfold hex_value, hex_digit.
  destruct (N.ltb_spec d 10).
  - replace ((48 <=? 48 + d) && (48 + d <=? 57)) with true.
    + f_equal. lia.
    + symmetry. apply andb_true_iff. split; apply N.leb_le; lia.
  - replace ((48 <=? 87 + d) && (87 + d <=? 57)) with false.
    + replace ((97 <=? 87 + d) && (87 + d <=? 102)) with true.
      * f_equal. lia.
      * symmetry. apply andb_true_iff. split; apply N.leb_le; lia.
    + symmetry. apply andb_false_iff. right. apply N.leb_gt. lia.
Qed.

Lemma decode_u_escape (n : N) (t : pystr) :
  n < 65536 -> decode_uXXXX (List.tl (List.tl (u_escape n)) ++ t) = Return (n, t).
Proof.
  intros H. unfold u_escape, decode_uXXXX. simpl.
  assert (H3 : n / 4096 < 16) by (apply N.Div0.div_lt_upper_bound; lia).
  assert (H2 : (n / 256) mod 16 < 16) by (apply N.mod_lt; lia).
  assert (H1 : (n / 16) mod 16 < 16) by (apply N.mod_lt; lia).
  assert (H0 : n mod 16 < 16) by (apply N.mod_lt; lia).
  rewrite !hex_value_digit by assumption.
  f_equal. f_equal.
  lia.
Qed.

Lemma land_shifted_low (a x k : N) : x < 2 ^ k -> N.land (a * 2 ^ k) x = 0.
Proof.
  intros Hx. apply N.bits_inj. intros i. rewrite N.land_spec, N.bits_0.
  destruct (N.lt_ge_cases i k) as [Hi | Hi].
  - rewrite N.mul_pow2_bits_low by assumption. reflexivity.
  - rewrite <- (N.mod_small x (2 ^ k)) by assumption.
    rewrite N.mod_pow2_bits_high by assumption. apply andb_false_r.
Qed.

Lemma lor_shifted_low (a x k : N) : x < 2 ^ k -> N.lor (a * 2 ^ k) x = a * 2 ^ k + x.
Proof.
  intros Hx. pose proof (land_shifted_low a x k Hx) as H0.
  rewrite (N.add_nocarry_lxor _ _ H0). symmetry. apply N.lxor_lor. exact H0.
Qed.

Lemma surrogate_high (n : N) :
  N.lor 55296 (N.land (N.shiftr n 10) 1023) = 55296 + (n / 1024) mod 1024.
Proof.
  change 1023 with (N.ones 10). rewrite N.land_ones, N.shiftr_div_pow2.
  change 55296 with (54 * 2 ^ 10). apply lor_shifted_low.
  apply N.mod_lt. discriminate.
Qed.

Lemma surrogate_low (n : N) :
  N.lor 56320 (N.land n 1023) = 56320 + n mod 1024.
Proof.
  change 1023 with (N.ones 10). rewrite N.land_ones.
  change 56320 with (55 * 2 ^ 10). apply lor_shifted_low.
  apply N.mod_lt. discriminate.
Qed.

Lemma surrogate_join (q r : N) :
  r < 1024 -> N.lor (N.shiftl q 10) r = q * 1024 + r.
Proof.
  intros H. rewrite N.shiftl_mul_pow2. apply lor_shifted_low. exact H.
Qed.

Lemma scanstring_u_escape (n : N) (t : pystr) (fuel : nat) :
  n < 65536 ->
  scanstring (S fuel) (u_escape n ++ t) =
  ('(char, s4) ←
     (if (55296 <=? n) && (n <=? 56319) then
        match strip_prefix [92; 117] t with
        | Some s3' =>
            '(uni2, s5) ← decode_uXXXX s3';
            if (56320 <=? uni2) && (uni2 <=? 57343) then
              Return (65536 + N.lor (N.shiftl (n - 55296) 10) (uni2 - 56320), s5)
            else Return (n, t)
        | None => Return (n, t)
        end
      else Return (n, t));
   '(t', r) ← scanstring fuel s4;
   Return (char :: t', r)).
Proof.
  intros H.
  change (u_escape n ++ t) with (92 :: 117 :: (List.tl (List.tl (u_escape n)) ++ t)).
  cbn [scanstring N.eqb N.ltb]. 
  change (92 =? 34) with false. change (92 <? 32) with false.
  change (92 =? 92) with true. change (117 =? 117) with true. cbv iota.
  rewrite decode_u_escape by assumption. reflexivity.
Qed.

(** One step of [scanstring] on the escape of one character. *)
Lemma scanstring_escape_char (c : N) (t : pystr) (fuel : nat) :
  is_scalar c = true ->
  scanstring (S fuel) (escape_char c ++ t) =
  ('(t', r) ← scanstring fuel t; Return (c :: t', r)).
Proof.
  intros Hc. unfold escape_char.
  destruct (N.eqb_spec c 92) as [->|N92]; [reflexivity|].
  destruct (N.eqb_spec c 34) as [->|N34]; [reflexivity|].
  destruct (N.eqb_spec c 8) as [->|N8]; [reflexivity|].
  destruct (N.eqb_spec c 12) as [->|N12]; [reflexivity|].
  destruct (N.eqb_spec c 10) as [->|N10]; [reflexivity|].
  destruct (N.eqb_spec c 13) as [->|N13]; [reflexivity|].
  destruct (N.eqb_spec c 9) as [->|N9]; [reflexivity|].
  destruct ((32 <=? c) && (c <=? 126)) eqn:Hp.
  - apply andb_true_iff in Hp. destruct Hp as [Hlo Hhi].
    apply N.leb_le in Hlo. simpl.
    destruct (N.eqb_spec c 34); [contradiction|].
    destruct (N.ltb_spec c 32); [lia|].
    destruct (N.eqb_spec c 92); [contradiction|]. reflexivity.
  - clear Hp N8 N12 N10 N13 N9 N34 N92.
    unfold is_scalar in Hc.
    destruct (N.ltb_spec c 65536) as [Hb|Hb].
    + rewrite (scanstring_u_escape c (t) fuel Hb).
      replace ((55296 <=? c) && (c <=? 56319)) with false; [reflexivity|].
      symmetry. apply andb_false_iff.
      apply orb_true_iff in Hc. destruct Hc as [Hc|Hc].
      * left. apply N.leb_gt. apply N.ltb_lt. exact Hc.
      * right. apply andb_true_iff in Hc. destruct Hc as [Hc _].
        apply N.leb_gt. apply N.ltb_lt in Hc. lia.
    + assert (Hc' : c < 1114112).
      { apply orb_true_iff in Hc. destruct Hc as [Hc|Hc].
        - apply N.ltb_lt in Hc. lia.
        - apply andb_true_iff in Hc. destruct Hc as [_ Hc]. apply N.ltb_lt. exact Hc. }
      cbv zeta. rewrite surrogate_high, surrogate_low.
      set (n := c - 65536).
      assert (Hn : n < 1048576) by (unfold n; lia).
      assert (Hq : (n / 1024) mod 1024 = n / 1024).
      { apply N.mod_small. apply N.Div0.div_lt_upper_bound. lia. }
      rewrite Hq.
      assert (Hq' : n / 1024 < 1024) by (apply N.Div0.div_lt_upper_bound; lia).
      assert (Hr : n mod 1024 < 1024) by (apply N.mod_lt; discriminate).
      rewrite <- app_assoc.
      rewrite (scanstring_u_escape (55296 + n / 1024)) by lia.
      replace ((55296 <=? 55296 + n / 1024) && (55296 + n / 1024 <=? 56319)) with true
        by (symmetry; apply andb_true_iff; split; apply N.leb_le; lia).
      change (strip_prefix [92; 117] (u_escape (56320 + n mod 1024) ++ t))
        with (Some (List.tl (List.tl (u_escape (56320 + n mod 1024))) ++ t)).
      cbv iota beta.
      rewrite decode_u_escape by lia. cbn [mbind outcome_bind].
      replace ((56320 <=? 56320 + n mod 1024) && (56320 + n mod 1024 <=? 57343)) with true
        by (symmetry; apply andb_true_iff; split; apply N.leb_le; lia).
      replace (55296 + n / 1024 - 55296) with (n / 1024) by lia.
      replace (56320 + n mod 1024 - 56320) with (n mod 1024) by lia.
      rewrite surrogate_join by assumption.
      replace (65536 + (n / 1024 * 1024 + n mod 1024)) with c by (unfold n; lia).
      reflexivity.
Qed.

Lemma scanstring_escaped (s t : pystr) (fuel : nat) :
  text_ok s = true -> (length s < fuel)%nat ->
  scanstring fuel (flat_map escape_char s ++ 34 :: t) = Return (s, t).
Proof.
  revert fuel. induction s as [|c s IH]; intros fuel Hs Hf.
  - destruct fuel; [simpl in Hf; lia | reflexivity].
  - destruct fuel as [|fuel]; [simpl in Hf; lia|].
    simpl in Hs. apply andb_true_iff in Hs. destruct Hs as [Hc Hs].
    change (flat_map escape_char (c :: s)) with (escape_char c ++ flat_map escape_char s).
    rewrite <- app_assoc. rewrite scanstring_escape_char by exact Hc.
    rewrite IH; [reflexivity | exact Hs | simpl in Hf; lia].
Qed.

Lemma escape_char_nonempty (c : N) : (1 <= length (escape_char c))%nat.
Proof.
  unfold escape_char.
  repeat match goal with |- context [if ?b then _ else _] => destruct b end;
    simpl; lia.
Qed.

Lemma length_escaped (s : pystr) : (length s <= length (flat_map escape_char s))%nat.
Proof.
  induction s as [|c s IH]; simpl; [lia|].
  rewrite length_app. pose proof (escape_char_nonempty c). lia.
Qed.

(** A string in quotes, read back from the character after the opening
    quote with the fuel that [scan_once] and [object_loop] give. *)
Lemma scanstring_encoded (s t : pystr) :
  text_ok s = true ->
  scanstring (S (length (flat_map escape_char s ++ 34 :: t)))
    (flat_map escape_char s ++ 34 :: t)
  = Return (s, t).
Proof.
  intros Hs. apply scanstring_escaped; [exact Hs|].
  rewrite length_app. simpl. pose proof (length_escaped s). lia.
Qed.

(** *** Fuel *)

Lemma decode_uXXXX_shorter (s : pystr) (n : N) (r : pystr) :
  decode_uXXXX s = Return (n, r) -> (length r < length s)%nat.
Proof.
  unfold decode_uXXXX.
  destruct s as [|a [|b [|c [|d s']]]]; try discriminate.
  destruct (hex_value a), (hex_value b), (hex_value c), (hex_value d); try discriminate.
  intros H. injection H as _ <-. simpl. lia.
Qed.

Lemma strip_prefix_shorter (p s r : pystr) :
  strip_prefix p s = Some r -> (length r <= length s)%nat.
Proof.
  revert s. induction p as [|x p IH]; intros [|y s] H; simpl in H; try discriminate.
  - injection H as <-. lia.
  - injection H as <-. lia.
  - destruct (x =? y); [|discriminate]. apply IH in H. simpl. lia.
Qed.

(** With more fuel than the input has characters, [scanstring] returns or
    raises, and what it leaves is shorter than its input. *)
Lemma scanstring_total (fuel : nat) (s : pystr) :
  (length s < fuel)%nat ->
  match scanstring fuel s with
  | Return (t, r) => (length r < length s)%nat
  | Raise _ => True
  | Unmodelled => False
  end.
Proof.
  revert s. induction fuel as [|fuel IH]; intros s Hf; [lia|].
  destruct s as [|c s1]; [exact I|]. cbn [scanstring].
  destruct (c =? 34); [simpl; lia|].
  destruct (c <? 32); [exact I|].
  assert (Hrec : forall (ch : N) (s' : pystr), (length s' <= length s1)%nat ->
            match ('(t, r) ← scanstring fuel s'; Return (ch :: t, r)) with
            | Return (t, r) => (length r < length (c :: s1))%nat
            | Raise _ => True
            | Unmodelled => False
            end).
  { intros ch s' Hs'. specialize (IH s' ltac:(simpl in Hf; lia)).
    destruct (scanstring fuel s') as [[t r]|e|]; simpl in *; try exact I; try lia. }
  destruct (c =? 92); [|apply Hrec; lia].
  destruct s1 as [|esc s2]; [exact I|].
  destruct (esc =? 117).
  - destruct (decode_uXXXX s2) as [[uni s3]|e|] eqn:E1; try exact I.
    2:{ unfold decode_uXXXX in E1.
        destruct s2 as [|a [|b [|c0 [|d s']]]]; try discriminate.
        destruct (hex_value a), (hex_value b), (hex_value c0), (hex_value d); discriminate. }
    apply decode_uXXXX_shorter in E1. cbn [mbind outcome_bind].
    destruct ((55296 <=? uni) && (uni <=? 56319)).
    + destruct (strip_prefix [92; 117] s3) as [s3'|] eqn:E2.
      * apply strip_prefix_shorter in E2.
        destruct (decode_uXXXX s3') as [[uni2 s5]|e|] eqn:E3; try exact I.
        2:{ unfold decode_uXXXX in E3.
            destruct s3' as [|a [|b [|c0 [|d s']]]]; try discriminate.
            destruct (hex_value a), (hex_value b), (hex_value c0), (hex_value d); discriminate. }
        apply decode_uXXXX_shorter in E3. cbn [mbind outcome_bind].
        destruct ((56320 <=? uni2) && (uni2 <=? 57343)); cbn [mbind outcome_bind];
          apply Hrec; simpl; lia.
      * cbn [mbind outcome_bind]. apply Hrec. simpl. lia.
    + cbn [mbind outcome_bind]. apply Hrec. simpl. lia.
  - destruct (backslash esc); [|exact I]. apply Hrec. simpl. lia.
Qed.

Lemma skip_ws_length (s : pystr) : (length (skip_ws s) <= length s)%nat.
Proof.
  induction s as [|c s IH]; [reflexivity|].
  simpl. destruct (is_ws c); simpl; lia.
Qed.

Lemma span_digits_length (s : pystr) : (length (snd (span_digits s)) <= length s)%nat.
Proof.
  induction s as [|c s IH]; [reflexivity|].
  simpl. destruct (is_digit c); [|simpl; lia].
  destruct (span_digits s) as [d r]. simpl in *. lia.
Qed.

Lemma match_integer_shorter (s : pystr) (d : Decimal.uint) (r : pystr) :
  match_integer s = Some (d, r) -> (length r < length s)%nat.
Proof.
  unfold match_integer. destruct s as [|c s']; [discriminate|].
  destruct (c =? 48).
  - intros H. injection H as _ <-. simpl. lia.
  - destruct (is_digit c) eqn:Hc; [|discriminate].
    intros H. injection H as H. pose proof (span_digits_length s') as Hl.
    simpl in H. rewrite Hc in H. destruct (span_digits s') as [d' r'].
    injection H as _ <-. simpl in *. lia.
Qed.

Lemma match_number_shorter (s : pystr) (res : outcome (pyval * pystr)) :
  match_number s = Some res -> shorter res s.
Proof.
  unfold match_number, shorter.
  destruct s as [|c s'].
  - discriminate.
  - destruct (c =? 45).
    + destruct (match_integer s') as [[d r]|] eqn:E; [|discriminate].
      apply match_integer_shorter in E. intros H. injection H as <-.
      destruct (has_frac r || has_exp r); [exact I | simpl; lia].
    + destruct (match_integer (c :: s')) as [[d r]|] eqn:E; [|discriminate].
      apply match_integer_shorter in E. intros H. injection H as <-.
      destruct (has_frac r || has_exp r); [exact I | exact E].
Qed.

Lemma strip_prefix_strict (p s r : pystr) :
  p <> [] -> strip_prefix p s = Some r -> (length r < length s)%nat.
Proof.
  destruct p as [|x p]; [congruence|]. intros _.
  destruct s as [|y s]; simpl; [discriminate|].
  destruct (x =? y); [|discriminate]. intros H.
  apply strip_prefix_shorter in H. lia.
Qed.

Lemma scan_keyword_shorter (kw : string) (v : pyval) (s : pystr) (res : pyval * pystr) :
  str kw <> [] -> scan_keyword kw v s = Some res -> (length (snd res) < length s)%nat.
Proof.
  intros Hkw. unfold scan_keyword.
  destruct (strip_prefix (str kw) s) as [r|] eqn:E; [|discriminate].
  intros H. injection H as <-. simpl. apply (strip_prefix_strict _ _ _ Hkw E).
Qed.

Section LoopFuel.

Variables scanA scanB : pystr -> outcome (pyval * pystr).
Variable bound : nat.
Hypothesis agree :
  forall s, (length s <= bound)%nat -> scanA s = scanB s /\ shorter (scanA s) s.

Lemma array_loop_fuel (n1 : nat) :
  forall (n2 : nat) (s : pystr),
    (length s <= bound)%nat -> (length s < n1)%nat -> (length s < n2)%nat ->
    array_loop scanA n1 s = array_loop scanB n2 s /\ shorter (array_loop scanA n1 s) s.
Proof.
  induction n1 as [|n1 IH]; intros n2 s Hb H1 H2; [lia|].
  destruct n2 as [|n2]; [lia|]. cbn [array_loop].
  destruct (agree s Hb) as [Heq Hsh]. rewrite <- Heq.
  destruct (scanA s) as [[value s1]|e|]; cbn [mbind outcome_bind];
    [|split; [reflexivity | exact I]..].
  simpl in Hsh. pose proof (skip_ws_length s1) as Hw1.
  destruct (skip_ws s1) as [|c s2]; [split; [reflexivity | exact I]|].
  simpl in Hw1.
  destruct (c =? 93); [split; [reflexivity | simpl; lia]|].
  destruct (c =? 44); [|split; [reflexivity | exact I]].
  pose proof (skip_ws_length s2) as Hw2.
  destruct (IH n2 (skip_ws s2)) as [IHeq IHsh]; try lia.
  rewrite <- IHeq.
  destruct (array_loop scanA n1 (skip_ws s2)) as [[values r]|e|];
    cbn [mbind outcome_bind]; split; try reflexivity; try exact I.
  simpl in *. lia.
Qed.

Lemma JSONArray_fuel (n1 n2 : nat) (s : pystr) :
  (length s <= bound)%nat -> (length s < n1)%nat -> (length s < n2)%nat ->
  JSONArray scanA n1 s = JSONArray scanB n2 s /\
  match JSONArray scanA n1 s with
  | Return (_, r) => (length r <= length s)%nat
  | _ => True
  end.
Proof.
  intros Hb H1 H2. unfold JSONArray. pose proof (skip_ws_length s) as Hw.
  destruct (skip_ws s) as [|c s1].
  - destruct (array_loop_fuel n1 n2 [] ltac:(simpl; lia) ltac:(simpl; lia) ltac:(simpl; lia))
      as [Heq Hsh].
    rewrite <- Heq. destruct (array_loop scanA n1 []) as [[values r]|e|];
      cbn [mbind outcome_bind]; split; try reflexivity; try exact I.
    simpl in *. lia.
  - simpl in Hw. destruct (c =? 93); [split; [reflexivity | simpl; lia]|].
    destruct (array_loop_fuel n1 n2 (c :: s1)) as [Heq Hsh]; try (simpl; lia).
    rewrite <- Heq. destruct (array_loop scanA n1 (c :: s1)) as [[values r]|e|];
      cbn [mbind outcome_bind]; split; try reflexivity; try exact I.
    simpl in *. lia.
Qed.

Lemma object_loop_fuel (n1 : nat) :
  forall (n2 : nat) (s : pystr),
    (length s <= bound)%nat -> (length s < n1)%nat -> (length s < n2)%nat ->
    object_loop scanA n1 s = object_loop scanB n2 s /\ shorter (object_loop scanA n1 s) s.
Proof.
  induction n1 as [|n1 IH]; intros n2 s Hb H1 H2; [lia|].
  destruct n2 as [|n2]; [lia|]. cbn [object_loop].
  pose proof (scanstring_total (S (length s)) s ltac:(lia)) as Hkey.
  destruct (scanstring (S (length s)) s) as [[key s1]|e|]; cbn [mbind outcome_bind];
    [|split; [reflexivity | exact I] | contradiction].
  pose proof (skip_ws_length s1) as Hw1.
  destruct (skip_ws s1) as [|c s2]; [split; [reflexivity | exact I]|].
  simpl in Hw1.
  destruct (c =? 58); [|split; [reflexivity | exact I]].
  pose proof (skip_ws_length s2) as Hw2.
  destruct (agree (skip_ws s2) ltac:(lia)) as [Heq Hsh]. rewrite <- Heq.
  destruct (scanA (skip_ws s2)) as [[value s3]|e|]; cbn [mbind outcome_bind];
    [|split; [reflexivity | exact I]..].
  simpl in Hsh. pose proof (skip_ws_length s3) as Hw3.
  destruct (skip_ws s3) as [|c' s4]; [split; [reflexivity | exact I]|].
  simpl in Hw3.
  destruct (c' =? 125); [split; [reflexivity | simpl; lia]|].
  destruct (c' =? 44); [|split; [reflexivity | exact I]].
  pose proof (skip_ws_length s4) as Hw4.
  destruct (skip_ws s4) as [|c'' s5]; [split; [reflexivity | exact I]|].
  simpl in Hw4.
  destruct (c'' =? 34); [|split; [reflexivity | exact I]].
  destruct (IH n2 s5) as [IHeq IHsh]; try lia.
  rewrite <- IHeq.
  destruct (object_loop scanA n1 s5) as [[pairs r]|e|];
    cbn [mbind outcome_bind]; split; try reflexivity; try exact I.
  simpl in *. lia.
Qed.

Lemma JSONObject_fuel (n1 n2 : nat) (s : pystr) :
  (length s <= bound)%nat -> (length s < n1)%nat -> (length s < n2)%nat ->
  JSONObject scanA n1 s = JSONObject scanB n2 s /\
  match JSONObject scanA n1 s with
  | Return (_, r) => (length r <= length s)%nat
  | _ => True
  end.
Proof.
  intros Hb H1 H2. unfold JSONObject. pose proof (skip_ws_length s) as Hw.
  destruct (skip_ws s) as [|c s1]; [split; [reflexivity | exact I]|].
  simpl in Hw. destruct (c =? 125); [split; [reflexivity | simpl; lia]|].
  destruct (c =? 34); [|split; [reflexivity | exact I]].
  destruct (object_loop_fuel n1 n2 s1) as [Heq Hsh]; try lia.
  rewrite <- Heq. destruct (object_loop scanA n1 s1) as [[pairs r]|e|];
    cbn [mbind outcome_bind]; split; try reflexivity; try exact I.
  simpl in *. lia.
Qed.

End LoopFuel.

(** With more fuel than the input has characters, the result of
    [scan_once] does not depend on the fuel. *)
Lemma scan_once_fuel (fuel1 : nat) :
  forall (fuel2 : nat) (s : pystr),
    (length s < fuel1)%nat -> (length s < fuel2)%nat ->
    scan_once fuel1 s = scan_once fuel2 s /\ shorter (scan_once fuel1 s) s.
Proof.
  induction fuel1 as [|fuel1 IH]; intros fuel2 s H1 H2; [lia|].
  destruct fuel2 as [|fuel2]; [lia|].
  destruct s as [|c s1]; [split; [reflexivity | exact I]|].
  cbn [scan_once]. simpl in H1, H2.
  destruct (c =? 34).
  { split; [reflexivity|].
    pose proof (scanstring_total (S (length s1)) s1 ltac:(lia)) as Ht.
    destruct (scanstring (S (length s1)) s1) as [[t r]|e|]; cbn [mbind outcome_bind];
      try exact I. simpl in *. lia. }
  assert (Hagree : forall s, (length s <= length s1)%nat ->
            scan_once fuel1 s = scan_once fuel2 s /\ shorter (scan_once fuel1 s) s).
  { intros s Hs. apply IH; lia. }
  destruct (c =? 123).
  { destruct (JSONObject_fuel _ _ (length s1) Hagree fuel1 fuel2 s1) as [Heq Hsh]; try lia.
    split; [exact Heq|].
    destruct (JSONObject (scan_once fuel1) fuel1 s1) as [[v r]|e|]; try exact I.
    simpl in *. lia. }
  destruct (c =? 91).
  { destruct (JSONArray_fuel _ _ (length s1) Hagree fuel1 fuel2 s1) as [Heq Hsh]; try lia.
    split; [exact Heq|].
    destruct (JSONArray (scan_once fuel1) fuel1 s1) as [[v r]|e|]; try exact I.
    simpl in *. lia. }
  split; [reflexivity|].
  destruct (scan_keyword "null" PNone (c :: s1)) as [[v r]|] eqn:E1.
  { apply scan_keyword_shorter in E1; [exact E1 | discriminate]. }
  destruct (scan_keyword "true" (PBool true) (c :: s1)) as [[v r]|] eqn:E2.
  { apply scan_keyword_shorter in E2; [exact E2 | discriminate]. }
  destruct (scan_keyword "false" (PBool false) (c :: s1)) as [[v r]|] eqn:E3.
  { apply scan_keyword_shorter in E3; [exact E3 | discriminate]. }
  destruct (match_number (c :: s1)) as [res|] eqn:E4.
  { apply match_number_shorter in E4. exact E4. }
  destruct (starts_with _ _ || starts_with _ _ || starts_with _ _); exact I.
Qed.

(** [loads] gives its scanner enough fuel: any larger amount gives the same
    result. *)
Lemma loads_fuel (s : pystr) (fuel : nat) :
  (length s < fuel)%nat ->
  starts_with [65279] s = false ->
  loads s =
  ('(obj, r) ← scan_once fuel (skip_ws s);
   match skip_ws r with
   | [] => Return obj
   | _ :: _ => Raise JSONDecodeError
   end).
Proof.
  intros Hf Hbom. unfold loads. rewrite Hbom.
  pose proof (skip_ws_length s) as Hw.
  destruct (scan_once_fuel (S (length s)) fuel (skip_ws s)) as [Heq _]; try lia.
  rewrite Heq. reflexivity.
Qed.

(** *** Integers *)

Lemma is_digit_uint_chars_head (d : Decimal.uint) (t : pystr) :
  d <> Nil -> exists c r, uint_chars d ++ t = c :: r /\ is_digit c = true.
Proof.
  destruct d; [congruence | ..]; intros _; eexists _, _; split; reflexivity.
Qed.

Lemma span_digits_uint_chars (d : Decimal.uint) (t : pystr) :
  ends_number t = true -> span_digits (uint_chars d ++ t) = (d, t).
Proof.
  intros Ht. induction d; simpl; try (rewrite IHd; reflexivity).
  destruct t as [|c t]; [reflexivity|]. simpl in Ht.
  simpl. destruct (is_digit c); [discriminate | reflexivity].
Qed.

Lemma nzhead_no_zero (d : Decimal.uint) :
  match nzhead d with D0 _ => False | _ => True end.
Proof. induction d; simpl; auto. Qed.

Lemma pos_to_uint_head (p : positive) :
  match Pos.to_uint p with D0 _ | Nil => False | _ => True end.
Proof.
  pose proof (Unsigned.to_of (Pos.to_uint p)) as H.
  rewrite Unsigned.of_to in H. simpl in H.
  pose proof (Unsigned.to_uint_nonzero p) as Hz.
  pose proof (Unsigned.to_uint_nonnil p) as Hn.
  unfold unorm in H. pose proof (nzhead_no_zero (Pos.to_uint p)) as Hh.
  destruct (nzhead (Pos.to_uint p)) eqn:E; rewrite H; try exact I; try contradiction.
Qed.

Lemma match_integer_pos (p : positive) (t : pystr) :
  ends_number t = true ->
  match_integer (uint_chars (Pos.to_uint p) ++ t) = Some (Pos.to_uint p, t).
Proof.
  intros Ht. pose proof (pos_to_uint_head p) as Hh.
  pose proof (span_digits_uint_chars (Pos.to_uint p) t Ht) as Hs.
  destruct (Pos.to_uint p) as [|d|d|d|d|d|d|d|d|d|d]; try contradiction;
    unfold match_integer; simpl uint_chars in *; simpl app in *;
    cbv beta iota; simpl (_ =? 48); simpl (is_digit _); cbv iota; rewrite Hs; reflexivity.
Qed.

Lemma number_tail (t : pystr) : ends_number t = true -> has_frac t || has_exp t = false.
Proof.
  destruct t as [|c t]; [reflexivity|]. simpl. intros H.
  apply negb_true_iff in H. apply orb_false_iff in H. destruct H as [H H69].
  apply orb_false_iff in H. destruct H as [H H101].
  apply orb_false_iff in H. destruct H as [_ H46].
  apply N.eqb_neq in H46. rewrite H101, H69. simpl.
  rewrite orb_false_r.
  destruct c as [|p]; [reflexivity|].
  repeat (destruct p as [p|p|]; try reflexivity). congruence.
Qed.

Lemma match_number_int_repr (z : Z) (t : pystr) :
  ends_number t = true ->
  match_number (int_repr z ++ t) = Some (Return (PInt z, t)).
Proof.
  intros Ht. pose proof (DecimalZ.of_to z) as Hz.
  destruct z as [|p|p].
  - change (match_number (int_repr 0 ++ t))
      with (Some (if has_frac t || has_exp t then Unmodelled
                  else Return (PInt 0, t))).
    rewrite (number_tail t Ht). reflexivity.
  - change (int_repr (Z.pos p)) with (uint_chars (Pos.to_uint p)).
    change (Z.to_int (Z.pos p)) with (Decimal.Pos (Pos.to_uint p)) in Hz.
    pose proof (pos_to_uint_head p) as Hh.
    pose proof (match_integer_pos p t Ht) as Hm.
    unfold match_number.
    destruct (uint_chars (Pos.to_uint p) ++ t) as [|c r] eqn:E.
    + discriminate Hm.
    + cbv beta iota zeta. destruct (N.eqb_spec c 45) as [->|Hc].
      * exfalso. destruct (Pos.to_uint p); try contradiction; discriminate E.
      * cbv beta iota zeta.
        rewrite Hm, (number_tail t Ht). rewrite <- Hz. reflexivity.
  - change (int_repr (Z.neg p)) with (45 :: uint_chars (Pos.to_uint p)).
    change (Z.to_int (Z.neg p)) with (Decimal.Neg (Pos.to_uint p)) in Hz.
    rewrite <- app_comm_cons.
    unfold match_number. change (45 =? 45) with true. cbv beta iota zeta.
    rewrite (match_integer_pos p t Ht), (number_tail t Ht). rewrite <- Hz. reflexivity.
Qed.

(** *** The scanner on encoded primitives *)

Lemma int_repr_head (z : Z) (t : pystr) :
  exists c r, int_repr z ++ t = c :: r /\ (c = 45 \/ is_digit c = true).
Proof.
  destruct z as [|p|p].
  - exists 48, t. split; [reflexivity | right; reflexivity].
  - change (int_repr (Z.pos p)) with (uint_chars (Pos.to_uint p)).
    destruct (is_digit_uint_chars_head (Pos.to_uint p) t) as (c & r & E & Hd).
    + apply Unsigned.to_uint_nonnil.
    + exists c, r. split; [exact E | right; exact Hd].
  - exists 45, (uint_chars (Pos.to_uint p) ++ t). split; [reflexivity | left; reflexivity].
Qed.

Lemma scan_once_number (c : N) (r : pystr) (res : outcome (pyval * pystr)) (fuel : nat) :
  c = 45 \/ is_digit c = true ->
  match_number (c :: r) = Some res ->
  scan_once (S fuel) (c :: r) = res.
Proof.
  intros Hc Hm.
  assert (Hrange : c = 45 \/ (48 <= c /\ c <= 57)).
  { destruct Hc as [Hc|Hc]; [left; exact Hc | right].
    unfold is_digit in Hc. apply andb_true_iff in Hc. destruct Hc as [H1 H2].
    apply N.leb_le in H1. apply N.leb_le in H2. split; assumption. }
  cbn [scan_once].
  destruct (N.eqb_spec c 34); [lia|].
  destruct (N.eqb_spec c 123); [lia|].
  destruct (N.eqb_spec c 91); [lia|].
  unfold scan_keyword. cbn [str List.map list_ascii_of_string strip_prefix].
  change (N_of_ascii "n") with 110. change (N_of_ascii "t") with 116.
  change (N_of_ascii "f") with 102.
  destruct (N.eqb_spec 110 c); [lia|].
  destruct (N.eqb_spec 116 c); [lia|].
  destruct (N.eqb_spec 102 c); [lia|].
  rewrite Hm. reflexivity.
Qed.

Lemma scan_once_int (z : Z) (rest : pystr) (fuel : nat) :
  ends_number rest = true ->
  scan_once (S fuel) (int_repr z ++ rest) = Return (PInt z, rest).
Proof.
  intros Hr. destruct (int_repr_head z rest) as (c & r & E & Hc).
  pose proof (match_number_int_repr z rest Hr) as Hm. rewrite E in Hm |- *.
  apply scan_once_number; assumption.
Qed.

Lemma scan_once_str (s rest : pystr) (fuel : nat) :
  text_ok s = true ->
  scan_once (S fuel) (encode_basestring_ascii s ++ rest) = Return (PStr s, rest).
Proof.
  intros Hs. unfold encode_basestring_ascii.
  rewrite <- app_comm_cons, <- app_assoc. cbn [scan_once].
  change (34 =? 34) with true. cbv iota.
  change ([34] ++ rest) with (34 :: rest).
  rewrite scanstring_encoded by exact Hs. reflexivity.
Qed.

Lemma starts_value_int_repr (z : Z) : starts_value (int_repr z) = true.
Proof.
  destruct (int_repr_head z []) as (c & r & E & Hc).
  rewrite app_nil_r in E. rewrite E. unfold starts_value.
  destruct Hc as [->|Hc]; [reflexivity|].
  unfold is_digit in Hc. apply andb_true_iff in Hc. destruct Hc as [H1 H2].
  apply N.leb_le in H1. apply N.leb_le in H2. unfold is_ws.
  repeat match goal with |- context [?a =? ?b] => destruct (N.eqb_spec a b); [lia|] end.
  reflexivity.
Qed.

(** *** White space and separators *)

Lemma skip_ws_newline_indent (lvl : nat) (s : pystr) :
  skip_ws (newline_indent lvl ++ s) = skip_ws s.
Proof.
  unfold newline_indent. simpl. induction (lvl + (lvl + 0))%nat as [|n IH]; [reflexivity|].
  simpl. exact IH.
Qed.

Lemma skip_ws_starts_value (s t : pystr) :
  starts_value s = true -> skip_ws (s ++ t) = s ++ t.
Proof.
  destruct s as [|c s]; [discriminate|]. simpl. intros H.
  apply negb_true_iff in H.
  apply orb_false_iff in H. destruct H as [H _].
  apply orb_false_iff in H. destruct H as [H _].
  apply orb_false_iff in H. destruct H as [H _].
  rewrite H. reflexivity.
Qed.

Lemma ends_number_newline_indent (lvl : nat) (s : pystr) :
  ends_number (newline_indent lvl ++ s) = true.
Proof. reflexivity. Qed.

(** *** The loops of [JSONArray] and [JSONObject] on joined chunks *)

Lemma join_cons2 (sep x y : pystr) (l : list pystr) :
  join sep (x :: y :: l) = x ++ sep ++ join sep (y :: l).
Proof. reflexivity. Qed.

Lemma starts_value_app (s t : pystr) :
  starts_value s = true -> starts_value (s ++ t) = true.
Proof. destruct s; [discriminate | exact (fun H => H)]. Qed.

Lemma starts_value_join (sep x : pystr) (l : list pystr) :
  starts_value x = true -> starts_value (join sep (x :: l)) = true.
Proof.
  intros H. destruct l as [|y l]; [exact H|].
  rewrite join_cons2. apply starts_value_app. exact H.
Qed.

Section Loops.

Variable scan : pystr -> outcome (pyval * pystr).
Variables sep_lvl close_lvl : nat.
Variable rest : pystr.

Lemma array_loop_join (items : list (pystr * pyval)) (n : nat) :
  items <> [] ->
  Forall (fun it => starts_value (fst it) = true /\
                    forall r, ends_number r = true ->
                              scan (fst it ++ r) = Return (snd it, r)) items ->
  (length items <= n)%nat ->
  array_loop scan n
    (join (44 :: newline_indent sep_lvl) (List.map fst items)
     ++ newline_indent close_lvl ++ 93 :: rest)
  = Return (List.map snd items, rest).
Proof.
  revert n. induction items as [|it items IH]; intros n Hne Hall Hn; [congruence|].
  destruct n as [|n]; [simpl in Hn; lia|].
  inversion Hall as [|? ? [Hstart Hscan] Hall']; subst.
  destruct items as [|it2 more].
  - cbn [List.map join array_loop].
    rewrite Hscan by apply ends_number_newline_indent.
    cbn [mbind outcome_bind]. rewrite skip_ws_newline_indent. reflexivity.
  - cbn [List.map]. rewrite join_cons2, <- !app_assoc. cbn [array_loop].
    rewrite Hscan by reflexivity. cbn [mbind outcome_bind].
    rewrite <- app_comm_cons.
    change (skip_ws (44 :: ?x)) with (44 :: x).
    cbv iota. change (44 =? 93) with false. change (44 =? 44) with true. cbv iota.
    rewrite skip_ws_newline_indent.
    rewrite skip_ws_starts_value.
    2:{ apply (starts_value_join _ (fst it2) (List.map fst more)).
        inversion Hall' as [|? ? [H _] _]. exact H. }
    change (fst it2 :: List.map fst more) with (List.map fst (it2 :: more)).
    rewrite IH; [reflexivity | discriminate | exact Hall' | simpl in Hn |- *; lia].
Qed.

Lemma item_text_unfold (k c t : pystr) :
  item_text k c ++ t = 34 :: flat_map escape_char k ++ 34 :: 58 :: 32 :: c ++ t.
Proof.
  unfold item_text, encode_basestring_ascii. simpl. rewrite <- !app_assoc. reflexivity.
Qed.

Local Abbreviation itext :=
  (fun it : pystr * pystr * pyval => item_text (fst (fst it)) (snd (fst it))).

Lemma object_loop_step (it : pystr * pystr * pyval) (after : pystr) (n : nat) :
  text_ok (fst (fst it)) = true ->
  starts_value (snd (fst it)) = true ->
  (forall r, ends_number r = true -> scan (snd (fst it) ++ r) = Return (snd it, r)) ->
  ends_number after = true ->
  object_loop scan (S n) (List.tl (item_text (fst (fst it)) (snd (fst it)) ++ after)) =
  match skip_ws after with
  | c' :: s4 =>
      if c' =? 125 then Return ([(fst (fst it), snd it)], s4)
      else if c' =? 44 then
        match skip_ws s4 with
        | c'' :: s5 =>
            if c'' =? 34 then
              '(pairs, r) ← object_loop scan n s5;
              Return ((fst (fst it), snd it) :: pairs, r)
            else Raise JSONDecodeError
        | [] => Raise JSONDecodeError
        end
      else Raise JSONDecodeError
  | [] => Raise JSONDecodeError
  end.
Proof.
  intros Hkey Hstart Hscan Hafter.
  rewrite item_text_unfold. cbn [List.tl object_loop].
  rewrite scanstring_encoded by exact Hkey. cbn [mbind outcome_bind].
  change (skip_ws (58 :: ?x)) with (58 :: x). cbv iota.
  change (58 =? 58) with true. cbv iota.
  change (skip_ws (32 :: ?x)) with (skip_ws x).
  rewrite skip_ws_starts_value by exact Hstart.
  rewrite Hscan by exact Hafter. reflexivity.
Qed.

Lemma object_loop_join (items : list (pystr * pystr * pyval)) (n : nat) :
  items <> [] ->
  Forall (fun it => text_ok (fst (fst it)) = true /\
                    starts_value (snd (fst it)) = true /\
                    forall r, ends_number r = true ->
                              scan (snd (fst it) ++ r) = Return (snd it, r)) items ->
  (length items <= n)%nat ->
  object_loop scan n
    (List.tl (join (44 :: newline_indent sep_lvl) (List.map itext items)
              ++ newline_indent close_lvl ++ 125 :: rest))
  = Return (List.map (fun it => (fst (fst it), snd it)) items, rest).
Proof.
  revert n. induction items as [|it items IH]; intros n Hne Hall Hn; [congruence|].
  destruct n as [|n]; [simpl in Hn; lia|].
  inversion Hall as [|? ? (Hkey & Hstart & Hscan) Hall']; subst.
  destruct items as [|it2 more].
  - cbn [List.map join]. cbv beta.
    rewrite (object_loop_step it) by (try assumption; apply ends_number_newline_indent).
    rewrite skip_ws_newline_indent. reflexivity.
  - cbn [List.map]. rewrite join_cons2. cbv beta.
    rewrite <- (app_assoc (item_text (fst (fst it)) (snd (fst it)))).
    rewrite (object_loop_step it) by (try assumption; reflexivity).
    rewrite <- !app_assoc, <- app_comm_cons.
    change (skip_ws (44 :: ?x)) with (44 :: x). cbv iota.
    change (44 =? 125) with false. change (44 =? 44) with true. cbv iota.
    rewrite skip_ws_newline_indent.
    specialize (IH n ltac:(discriminate) Hall' ltac:(simpl in Hn |- *; lia)).
    cbn [List.map] in IH.
    assert (Hhead : forall t, join (44 :: newline_indent sep_lvl)
                                (itext it2 :: List.map itext more) ++ t
                              = 34 :: List.tl (join (44 :: newline_indent sep_lvl)
                                (itext it2 :: List.map itext more) ++ t)).
    { intros t. cbv beta. destruct (List.map itext more);
        [|rewrite join_cons2, <- !app_assoc];
        cbn [join]; rewrite item_text_unfold; reflexivity. }
    rewrite Hhead. change (skip_ws (34 :: ?x)) with (34 :: x). cbv iota.
    change (34 =? 34) with true. cbv iota.
    rewrite IH. reflexivity.
Qed.

End Loops.

Lemma JSONArray_nonempty (scan : pystr -> outcome (pyval * pystr)) (n lvl : nat)
    (x t : pystr) :
  starts_value x = true ->
  JSONArray scan n (newline_indent lvl ++ x ++ t) =
  ('(values, r) ← array_loop scan n (x ++ t); Return (PList values, r)).
Proof.
  intros Hx. unfold JSONArray.
  rewrite skip_ws_newline_indent, skip_ws_starts_value by exact Hx.
  destruct x as [|c x]; [discriminate|]. simpl in Hx |- *.
  apply negb_true_iff in Hx.
  apply orb_false_iff in Hx. destruct Hx as [Hx _].
  apply orb_false_iff in Hx. destruct Hx as [Hx _].
  apply orb_false_iff in Hx. destruct Hx as [_ Hx].
  rewrite Hx. reflexivity.
Qed.

Lemma JSONObject_nonempty (scan : pystr -> outcome (pyval * pystr)) (n lvl : nat)
    (x : pystr) :
  JSONObject scan n (newline_indent lvl ++ 34 :: x) =
  ('(pairs, r) ← object_loop scan n x; Return (PDict (dict_of_pairs pairs), r)).
Proof. unfold JSONObject. rewrite skip_ws_newline_indent. reflexivity. Qed.

(** *** Lengths *)

Lemma starts_value_nonempty (x : pystr) : starts_value x = true -> (1 <= length x)%nat.
Proof. destruct x; [discriminate | simpl; lia]. Qed.

Lemma length_join (sep : pystr) (l : list pystr) :
  Forall (fun x => (1 <= length x)%nat) l ->
  (length l <= length (join sep l))%nat /\
  Forall (fun x => (length x <= length (join sep l))%nat) l.
Proof.
  induction l as [|x l IH]; intros H; [split; [reflexivity | constructor]|].
  inversion H as [|? ? Hx Hl]; subst. destruct (IH Hl) as [IH1 IH2].
  destruct l as [|y l].
  - simpl. split; [exact Hx | constructor; [lia | constructor]].
  - rewrite join_cons2, !length_app. split.
    + simpl in IH1 |- *. lia.
    + constructor; [lia|].
      eapply List.Forall_impl; [|exact IH2]. simpl. intros; lia.
Qed.

Lemma length_encode_container (o c : N) (lvl : nat) (chunks : list pystr) :
  chunks <> [] ->
  encode_container o c lvl chunks =
  o :: newline_indent (S lvl) ++ join (44 :: newline_indent (S lvl)) chunks
       ++ newline_indent lvl ++ [c].
Proof. destruct chunks; [congruence | reflexivity]. Qed.


(** *** Sorting the items of a dict *)

Lemma insert_item_map {V W} (f : V -> W) (kv : pystr * V) (l : list (pystr * V)) :
  insert_item (fst kv, f (snd kv)) (List.map (fun kv => (fst kv, f (snd kv))) l)
  = List.map (fun kv => (fst kv, f (snd kv))) (insert_item kv l).
Proof.
  induction l as [|kv' l IH]; [reflexivity|].
  simpl. destruct (str_leb (fst kv) (fst kv')); [reflexivity|].
  simpl. f_equal. exact IH.
Qed.

Lemma sort_items_map {V W} (f : V -> W) (l : list (pystr * V)) :
  sort_items (List.map (fun kv => (fst kv, f (snd kv))) l)
  = List.map (fun kv => (fst kv, f (snd kv))) (sort_items l).
Proof.
  induction l as [|kv l IH]; [reflexivity|].
  simpl. rewrite IH. apply insert_item_map.
Qed.

Lemma insert_item_perm {V} (kv : pystr * V) (l : list (pystr * V)) :
  Permutation (insert_item kv l) (kv :: l).
Proof.
  induction l as [|kv' l IH]; [reflexivity|].
  simpl. destruct (str_leb (fst kv) (fst kv')); [reflexivity|].
  rewrite IH. apply perm_swap.
Qed.

Lemma sort_items_perm {V} (l : list (pystr * V)) : Permutation (sort_items l) l.
Proof.
  induction l as [|kv l IH]; [reflexivity|].
  simpl. rewrite insert_item_perm. constructor. exact IH.
Qed.

(** *** The scanner on encoded values *)

Lemma round_trips_elements (lvl : nat) (l : list pyval) :
  Forall (fun v => supported v = true -> round_trips v) l ->
  forallb supported l = true ->
  exists items : list (pystr * pyval),
    osequence (List.map (iterencode lvl) l) = Return (List.map fst items) /\
    List.map snd items = List.map sort_keys l /\
    Forall (fun it => scans_to (fst it) (snd it)) items.
Proof.
  induction l as [|v l IHl]; intros Hall Hsup.
  - exists []. repeat split. constructor.
  - inversion Hall as [|? ? Hv Hl]; subst.
    simpl in Hsup. apply andb_true_iff in Hsup. destruct Hsup as [Hsv Hsl].
    destruct (Hv Hsv lvl) as (text & Henc & Hscan).
    destruct (IHl Hl Hsl) as (items & Hseq & Hmap & Hitems).
    exists ((text, sort_keys v) :: items). split; [|split].
    + simpl. rewrite Henc. cbn [mbind outcome_bind]. rewrite Hseq. reflexivity.
    + simpl. rewrite Hmap. reflexivity.
    + constructor; assumption.
Qed.

Lemma round_trips_items (lvl : nat) (d : list (pystr * pyval)) :
  Forall (fun kv => supported (snd kv) = true -> round_trips (snd kv)) d ->
  forallb (fun kv => text_ok (fst kv) && supported (snd kv)) d = true ->
  exists items : list (pystr * pystr * pyval),
    osequence (List.map encode_item
                 (List.map (fun kv => (fst kv, iterencode lvl (snd kv))) d))
    = Return (List.map (fun it => item_text (fst (fst it)) (snd (fst it))) items) /\
    List.map (fun it => (fst (fst it), snd it)) items
    = List.map (fun kv => (fst kv, sort_keys (snd kv))) d /\
    Forall (fun it => text_ok (fst (fst it)) = true /\ scans_to (snd (fst it)) (snd it)) items.
Proof.
  induction d as [|[k v] d IHd]; intros Hall Hsup.
  - exists []. repeat split. constructor.
  - inversion Hall as [|? ? Hv Hd]; subst. cbn [fst snd] in Hv.
    simpl in Hsup. apply andb_true_iff in Hsup. destruct Hsup as [Hkv Hsd].
    apply andb_true_iff in Hkv. destruct Hkv as [Hk Hsv].
    destruct (Hv Hsv lvl) as (text & Henc & Hscan).
    destruct (IHd Hd Hsd) as (items & Hseq & Hmap & Hitems).
    exists ((k, text, sort_keys v) :: items). split; [|split].
    + cbn [List.map osequence fst snd]. rewrite Henc.
      change (encode_item (k, Return text)) with (@Return pystr (item_text k text)).
      cbn [mbind outcome_bind]. rewrite Hseq. reflexivity.
    + simpl. rewrite Hmap. reflexivity.
    + constructor; [split; assumption | assumption].
Qed.

Lemma scans_to_list (lvl : nat) (items : list (pystr * pyval)) :
  Forall (fun it => scans_to (fst it) (snd it)) items ->
  scans_to (encode_container 91 93 lvl (List.map fst items)) (PList (List.map snd items)).
Proof.
  intros Hitems. destruct items as [|it items].
  - split; [reflexivity|]. intros rest fuel _ Hf.
    destruct fuel as [|fuel]; [simpl in Hf; lia | reflexivity].
  - set (its := it :: items) in *.
    rewrite length_encode_container by discriminate.
    split; [reflexivity|]. intros rest fuel Hrest Hf.
    destruct fuel as [|fuel]; [simpl in Hf; lia|].
    rewrite <- app_comm_cons. cbn [scan_once].
    change (91 =? 34) with false. change (91 =? 123) with false.
    change (91 =? 91) with true. cbv iota.
    assert (Hne : Forall (fun x => (1 <= length x)%nat) (List.map fst its)).
    { apply List.Forall_map. eapply List.Forall_impl; [|exact Hitems].
      intros x [Hx _]. apply starts_value_nonempty. exact Hx. }
    destruct (length_join (44 :: newline_indent (S lvl)) _ Hne) as [Hlen Hlens].
    assert (Hfuel : (length (join (44%N :: newline_indent (S lvl)) (List.map fst its)) <= fuel)%nat).
    { cbn [length] in Hf. rewrite !length_app in Hf. lia. }
    rewrite <- !app_assoc.
    rewrite JSONArray_nonempty.
    2:{ unfold its. cbn [List.map]. apply starts_value_join.
        inversion Hitems as [|? ? [Hx _] _]. exact Hx. }
    change ([93] ++ rest) with (93 :: rest).
    rewrite array_loop_join.
    + reflexivity.
    + discriminate.
    + rewrite List.Forall_map in Hlens.
      rewrite List.Forall_forall in Hitems, Hlens |- *.
      intros x Hx. destruct (Hitems x Hx) as [Hs Hscan]. split; [exact Hs|].
      intros r Hr. apply Hscan; [exact Hr|]. specialize (Hlens x Hx). cbv beta in Hlens. lia.
    + rewrite length_map in Hlen. lia.
Qed.

(** *** Keys *)

Lemma str_eqb_eq (a b : pystr) : str_eqb a b = true <-> a = b.
Proof.
  revert b. induction a as [|x a IH]; intros [|y b]; simpl; split;
    try discriminate; try reflexivity.
  - intros H. apply andb_true_iff in H. destruct H as [Hx Hab].
    apply N.eqb_eq in Hx. apply IH in Hab. congruence.
  - intros H. injection H as -> ->. rewrite N.eqb_refl. simpl. apply IH. reflexivity.
Qed.

Lemma str_eqb_refl (a : pystr) : str_eqb a a = true.
Proof. apply str_eqb_eq. reflexivity. Qed.

Lemma str_eqb_neq (a b : pystr) : a <> b -> str_eqb a b = false.
Proof.
  intros H. destruct (str_eqb a b) eqn:E; [|reflexivity].
  apply str_eqb_eq in E. contradiction.
Qed.

Lemma keys_distinct_NoDup (ks : list pystr) : keys_distinct ks = true <-> List.NoDup ks.
Proof.
  induction ks as [|k ks IH]; simpl.
  - split; [constructor | reflexivity].
  - rewrite andb_true_iff, negb_true_iff, IH. split.
    + intros [Hk Hks]. constructor; [|exact Hks]. intros Hin.
      assert (existsb (str_eqb k) ks = true); [|congruence].
      apply existsb_exists. exists k. split; [exact Hin | apply str_eqb_refl].
    + intros H. inversion H as [|? ? Hk Hks]; subst. split; [|exact Hks].
      destruct (existsb (str_eqb k) ks) eqn:E; [|reflexivity].
      apply existsb_exists in E. destruct E as (k' & Hin & Heq).
      apply str_eqb_eq in Heq. subst k'. contradiction.
Qed.

Lemma dict_set_fresh (k : pystr) (v : pyval) (d : list (pystr * pyval)) :
  ~ In k (List.map fst d) -> dict_set k v d = d ++ [(k, v)].
Proof.
  induction d as [|[k' v'] d IH]; intros Hk; [reflexivity|].
  simpl in Hk |- *. rewrite str_eqb_neq by (intros ->; apply Hk; left; reflexivity).
  rewrite IH by (intros H; apply Hk; right; exact H). reflexivity.
Qed.

Lemma dict_of_pairs_from (pairs acc : list (pystr * pyval)) :
  List.NoDup (List.map fst (acc ++ pairs)) ->
  fold_left (fun d kv => dict_set (fst kv) (snd kv) d) pairs acc = acc ++ pairs.
Proof.
  revert acc. induction pairs as [|[k v] pairs IH]; intros acc Hnd.
  - simpl. rewrite app_nil_r. reflexivity.
  - simpl. rewrite dict_set_fresh.
    + rewrite IH; rewrite <- app_assoc; [reflexivity | exact Hnd].
    + rewrite List.map_app in Hnd. simpl in Hnd.
      apply List.NoDup_remove_2 in Hnd. intros Hin. apply Hnd.
      apply List.in_or_app. left. exact Hin.
Qed.

Lemma dict_of_pairs_distinct (pairs : list (pystr * pyval)) :
  List.NoDup (List.map fst pairs) -> dict_of_pairs pairs = pairs.
Proof. intros H. unfold dict_of_pairs. apply (dict_of_pairs_from pairs []). exact H. Qed.

Lemma dict_get_In {V} (k : pystr) (v : V) (d : list (pystr * V)) :
  List.NoDup (List.map fst d) -> In (k, v) d -> dict_get k d = Some v.
Proof.
  induction d as [|[k' v'] d IH]; intros Hnd Hin; [contradiction|].
  simpl in Hnd. inversion Hnd as [|? ? Hk' Hnd']; subst.
  simpl. destruct Hin as [Heq | Hin].
  - injection Heq as -> ->. rewrite str_eqb_refl. reflexivity.
  - rewrite str_eqb_neq; [apply IH; assumption|].
    intros ->. apply Hk'. apply (List.in_map fst) in Hin. exact Hin.
Qed.

Lemma scans_to_dict (lvl : nat) (items : list (pystr * pystr * pyval)) :
  Forall (fun it => text_ok (fst (fst it)) = true /\ scans_to (snd (fst it)) (snd it)) items ->
  scans_to
    (encode_container 123 125 lvl
       (List.map (fun it => item_text (fst (fst it)) (snd (fst it))) items))
    (PDict (dict_of_pairs (List.map (fun it => (fst (fst it), snd it)) items))).
Proof.
  intros Hitems. destruct items as [|it items].
  - split; [reflexivity|]. intros rest fuel _ Hf.
    destruct fuel as [|fuel]; [simpl in Hf; lia | reflexivity].
  - set (its := it :: items) in *.
    set (itext := fun it : pystr * pystr * pyval => item_text (fst (fst it)) (snd (fst it))).
    rewrite length_encode_container by discriminate.
    split; [reflexivity|]. intros rest fuel Hrest Hf.
    destruct fuel as [|fuel]; [simpl in Hf; lia|].
    rewrite <- app_comm_cons. cbn [scan_once].
    change (123 =? 34) with false. change (123 =? 123) with true. cbv iota.
    assert (Hne : Forall (fun x => (1 <= length x)%nat) (List.map itext its)).
    { apply List.Forall_map. apply List.Forall_forall. intros x _.
      unfold itext, item_text, encode_basestring_ascii. simpl. lia. }
    destruct (length_join (44 :: newline_indent (S lvl)) _ Hne) as [Hlen Hlens].
    assert (Hfuel : (length (join (44%N :: newline_indent (S lvl)) (List.map itext its)) <= fuel)%nat).
    { cbn [length] in Hf. rewrite !length_app in Hf. lia. }
    rewrite <- !app_assoc.
    assert (Hhead : forall t, join (44 :: newline_indent (S lvl)) (List.map itext its) ++ t
                              = 34 :: List.tl (join (44 :: newline_indent (S lvl))
                                                 (List.map itext its) ++ t)).
    { intros t. unfold its. cbn [List.map]. destruct (List.map itext items);
        [|rewrite join_cons2, <- !app_assoc];
        cbn [join]; unfold itext; rewrite item_text_unfold; reflexivity. }
    rewrite Hhead, JSONObject_nonempty.
    change ([125] ++ rest) with (125 :: rest).
    subst itext. cbv beta in *. rewrite object_loop_join.
    + reflexivity.
    + discriminate.
    + rewrite List.Forall_map in Hlens.
      rewrite List.Forall_forall in Hitems, Hlens |- *.
      intros x Hx. destruct (Hitems x Hx) as [Hk [Hs Hscan]]. split; [exact Hk|].
      split; [exact Hs|].
      intros r Hr. apply Hscan; [exact Hr|]. specialize (Hlens x Hx). cbv beta in Hlens.
      unfold item_text at 1 in Hlens. rewrite !length_app in Hlens. lia.
    + rewrite length_map in Hlen. lia.
Qed.

(** *** Every supported value is read back *)

Lemma supported_round_trips (v : pyval) : supported v = true -> round_trips v.
Proof.
  induction v as [| b | z | s | b | l IH | d IH] using pyval_ind; intros Hsup lvl.
  - exists (str "null"). split; [reflexivity|]. split; [reflexivity|].
    intros rest fuel _ Hf. destruct fuel as [|fuel]; [simpl in Hf; lia | reflexivity].
  - exists (str (if b then "true" else "false")). split; [destruct b; reflexivity|].
    split; [destruct b; reflexivity|].
    intros rest fuel _ Hf.
    destruct fuel as [|fuel]; [destruct b; simpl in Hf; lia | destruct b; reflexivity].
  - exists (int_repr z). split; [reflexivity|]. split; [apply starts_value_int_repr|].
    intros rest fuel Hrest Hf. destruct fuel as [|fuel].
    + pose proof (starts_value_nonempty _ (starts_value_int_repr z)). lia.
    + apply scan_once_int. exact Hrest.
  - exists (encode_basestring_ascii s). split; [reflexivity|]. split; [reflexivity|].
    intros rest fuel _ Hf. destruct fuel as [|fuel]; [simpl in Hf; lia|].
    apply scan_once_str. exact Hsup.
  - discriminate Hsup.
  - simpl in Hsup.
    destruct (round_trips_elements (S lvl) l IH Hsup) as (items & Hseq & Hmap & Hitems).
    exists (encode_container 91 93 lvl (List.map fst items)). split.
    + cbn [iterencode]. rewrite Hseq. reflexivity.
    + cbn [sort_keys]. rewrite <- Hmap. apply scans_to_list. exact Hitems.
  - simpl in Hsup. apply andb_true_iff in Hsup. destruct Hsup as [Hkeys Hsup].
    pose proof (sort_items_perm d) as Hperm.
    assert (IH' : Forall (fun kv => supported (snd kv) = true -> round_trips (snd kv))
                    (sort_items d)).
    { apply (Permutation_Forall (Permutation_sym Hperm)). exact IH. }
    assert (Hsup' : forallb (fun kv => text_ok (fst kv) && supported (snd kv)) (sort_items d)
                    = true).
    { apply forallb_forall. intros x Hx.
      apply (proj1 (forallb_forall _ d) Hsup). apply (Permutation_in _ Hperm Hx). }
    destruct (round_trips_items (S lvl) (sort_items d) IH' Hsup')
      as (items & Hseq & Hmap & Hitems).
    exists (encode_container 123 125 lvl
              (List.map (fun it => item_text (fst (fst it)) (snd (fst it))) items)).
    split.
    + cbn [iterencode]. rewrite (sort_items_map (iterencode (S lvl))).
      rewrite Hseq. reflexivity.
    + cbn [sort_keys]. rewrite (sort_items_map sort_keys). rewrite <- Hmap.
      rewrite <- (dict_of_pairs_distinct
                    (List.map (fun it => (fst (fst it), snd it)) items)).
      * apply scans_to_dict. exact Hitems.
      * rewrite Hmap, List.map_map. cbn [fst].
        apply keys_distinct_NoDup in Hkeys.
        apply (Permutation_NoDup (l := List.map fst d)); [|exact Hkeys].
        apply Permutation_map. apply Permutation_sym. exact Hperm.
Qed.

(** *** The value read back is equal to the value written *)

Lemma py_eq_list_cons (x y : pyval) (la lb : list pyval) :
  py_eq (PList (x :: la)) (PList (y :: lb)) = py_eq x y && py_eq (PList la) (PList lb).
Proof. reflexivity. Qed.

Lemma py_eq_dict (da db : list (pystr * pyval)) :
  py_eq (PDict da) (PDict db) =
  (length da =? length db)%nat &&
  forallb (fun kv => match dict_get (fst kv) db with
                     | Some vb => py_eq (snd kv) vb
                     | None => false
                     end) da.
Proof.
  cbn [py_eq]. f_equal.
  induction da as [|[k va] da IH]; [reflexivity|].
  cbn [forallb fst snd]. rewrite <- IH. destruct (dict_get k db); reflexivity.
Qed.

Lemma py_eq_sort_keys (v : pyval) : supported v = true -> py_eq (sort_keys v) v = true.
Proof.
  induction v as [| b | z | s | b | l IH | d IH] using pyval_ind; intros Hsup.
  - reflexivity.
  - destruct b; reflexivity.
  - apply Z.eqb_refl.
  - apply str_eqb_refl.
  - discriminate Hsup.
  - cbn [sort_keys]. simpl in Hsup.
    induction l as [|x l IHl]; [reflexivity|].
    inversion IH as [|? ? Hx Hl]; subst.
    simpl in Hsup. apply andb_true_iff in Hsup. destruct Hsup as [Hsx Hsl].
    cbn [List.map]. rewrite py_eq_list_cons, (Hx Hsx). apply IHl; assumption.
  - cbn [sort_keys]. simpl in Hsup. apply andb_true_iff in Hsup.
    destruct Hsup as [Hkeys Hsup]. apply keys_distinct_NoDup in Hkeys.
    rewrite py_eq_dict. apply andb_true_iff. split.
    + apply Nat.eqb_eq.
      rewrite (Permutation_length (sort_items_perm _)). apply length_map.
    + apply forallb_forall. intros [k va] Hin. cbn [fst snd].
      apply (Permutation_in _ (sort_items_perm _)) in Hin.
      apply List.in_map_iff in Hin. destruct Hin as ([k' vb] & Heq & Hin).
      cbn [fst snd] in Heq. injection Heq as -> <-.
      rewrite (dict_get_In k vb d Hkeys Hin).
      rewrite List.Forall_forall in IH. apply (IH (k, vb) Hin).
      apply (proj1 (forallb_forall _ d) Hsup) in Hin. cbn [fst snd] in Hin.
      apply andb_true_iff in Hin. apply Hin.
Qed.

Lemma loads_text (text : pystr) (v : pyval) :
  scans_to text v -> loads text = Return v.
Proof.
  intros [Hstart Hscan]. unfold loads.
  destruct text as [|c text]; [discriminate|].
  assert (Hbom : starts_with [65279] (c :: text) = false).
  { unfold starts_with, strip_prefix. unfold starts_value in Hstart.
    apply negb_true_iff in Hstart.
    apply orb_false_iff in Hstart. destruct Hstart as [_ Hc].
    rewrite N.eqb_sym, Hc. reflexivity. }
  rewrite Hbom.
  rewrite <- (app_nil_r (c :: text)) at 2.
  rewrite skip_ws_starts_value by exact Hstart. rewrite app_nil_r.
  rewrite <- (app_nil_r (c :: text)) at 2.
  rewrite Hscan; [reflexivity | reflexivity | lia].
Qed.

(** C2: for every supported value, the default deserializer applied to the
    output of the default serializer returns a value equal to it: the same
    value with the items of every dict in the order of their keys. *)
Theorem json_round_trip (v : pyval) :
  supported v = true ->
  exists (s : pystr) (v' : pyval),
    serializer (JSONField_init no_kwargs) v = Return (PStr s) /\
    deserializer (JSONField_init no_kwargs) s = Return v' /\
    v' = sort_keys v /\
    py_eq v' v = true.
Proof.
  intros Hsup.
  destruct (supported_round_trips v Hsup 0%nat) as (text & Henc & Hscan).
  exists text, (sort_keys v). split; [|split; [|split]].
  - simpl. unfold dumps. rewrite Henc. reflexivity.
  - simpl. apply loads_text. exact Hscan.
  - reflexivity.
  - apply py_eq_sort_keys. exact Hsup.
Qed.

Lemma json_round_trip_witness :
  exists (s : pystr) (v' : pyval),
    serializer (JSONField_init no_kwargs)
      (PDict [(str "b", PList [PInt (-12); PBool true; PNone; PStr [233; 10; 128512]]);
              (str "a", PDict [])]) = Return (PStr s) /\
    deserializer (JSONField_init no_kwargs) s = Return v' /\
    v' = sort_keys
           (PDict [(str "b", PList [PInt (-12); PBool true; PNone; PStr [233; 10; 128512]]);
                   (str "a", PDict [])]) /\
    py_eq v'
      (PDict [(str "b", PList [PInt (-12); PBool true; PNone; PStr [233; 10; 128512]]);
              (str "a", PDict [])]) = true.
Proof.
  apply (json_round_trip
           (PDict [(str "b", PList [PInt (-12); PBool true; PNone; PStr [233; 10; 128512]]);
                   (str "a", PDict [])])).
  vm_compute. reflexivity.
Defined.

(** The other direction is not an identity: the decoder accepts a text that
    the encoder does not produce. *)
Lemma dumps_loads_not_identity :
  loads (str "[1]") = Return (PList [PInt 1]) /\
  dumps (PList [PInt 1]) = Return (PStr (str "[
  1
]")).
Proof. split; vm_compute; reflexivity. Qed.

(** A [str] with a high surrogate followed by a low surrogate is outside
    the supported values: the decoder joins the two escapes into one
    character. *)
Lemma dumps_loads_surrogates :
  supported (PStr [55357; 56832]) = false /\
  dumps (PStr [55357; 56832]) = Return (PStr (34 :: str "\ud83d\ude00" ++ [34])) /\
  loads (34 :: str "\ud83d\ude00" ++ [34]) = Return (PStr [128512]).
Proof. repeat split; vm_compute; reflexivity. Qed.

(** * Further properties *)

(** ** Writing and reading back *)

Lemma starts_value_nonnil (text : pystr) : starts_value text = true -> text <> [].
Proof. destruct text; [discriminate | discriminate]. Qed.

(** What the encoder returns for a supported value is read by [loads], and
    so by [to_python], as that value, its keys in order. *)
Lemma loads_encoded (v : pyval) :
  supported v = true ->
  exists text,
    iterencode 0 v = Return text /\ text <> [] /\ loads text = Return (sort_keys v).
Proof.
  intros Hsup.
  destruct (supported_round_trips v Hsup 0%nat) as (text & Henc & Hscan).
  exists text. split; [exact Henc|]. split.
  - apply starts_value_nonnil. apply Hscan.
  - apply loads_text. exact Hscan.
Qed.

Lemma to_python_encoded (self : JSONField) (v : pyval) :
  deserializer self = loads ->
  supported v = true ->
  exists text,
    iterencode 0 v = Return text /\ text <> [] /\
    to_python self (PStr text) = Return (sort_keys v).
Proof.
  intros Hd Hsup. destruct (loads_encoded v Hsup) as (text & Henc & Hne & Hl).
  exists text. split; [exact Henc|]. split; [exact Hne|].
  unfold to_python. rewrite (py_eq_nonempty_str text Hne). simpl.
  rewrite Hd, Hl. reflexivity.
Qed.

(** X1: a supported dict or list that is written with the default serializer is
    stored as a text that is not empty, and reading that text with the
    default deserializer returns a value equal to the one written. *)
Theorem write_read_round_trip {Args : Type}
    (base_prep : JSONField -> pyval -> outcome pyval)
    (base_save : JSONField -> pyval -> Args -> outcome pyval)
    (self : JSONField) (value : pyval) (args : Args) :
  serializer self = dumps ->
  deserializer self = loads ->
  is_dict_or_list value = true ->
  supported value = true ->
  exists (text : pystr) (back : pyval),
    get_prep_value base_prep self value = Return (PStr text) /\
    get_db_prep_save base_save self value args = Return (PStr text) /\
    text <> [] /\
    from_db_value self (PStr text) = Return back /\
    py_eq back value = true.
Proof.
  intros Hs Hd Hdl Hsup.
  destruct (to_python_encoded self value Hd Hsup) as (text & Henc & Hne & Hread).
  exists text, (sort_keys value).
  assert (Hser : serializer self value = Return (PStr text)).
  { rewrite Hs. unfold dumps. rewrite Henc. reflexivity. }
  assert (Hg : get_prep_value base_prep self value = serializer self value)
    by (destruct value; try discriminate Hdl; reflexivity).
  assert (Hg' : get_db_prep_save base_save self value args = serializer self value)
    by (destruct value; try discriminate Hdl; reflexivity).
  rewrite Hg, Hg', Hser. unfold from_db_value.
  repeat split; [exact Hne | exact Hread | apply py_eq_sort_keys; exact Hsup].
Qed.

Lemma write_read_round_trip_witness :
  exists (text : pystr) (back : pyval),
    get_prep_value TextField_get_prep_value (JSONField_init no_kwargs)
      (PDict [(str "title", PStr (str "test")); (str "type", PInt 3)]) = Return (PStr text) /\
    get_db_prep_save TextField_get_db_prep_save (JSONField_init no_kwargs)
      (PDict [(str "title", PStr (str "test")); (str "type", PInt 3)]) tt = Return (PStr text) /\
    text <> [] /\
    from_db_value (JSONField_init no_kwargs) (PStr text) = Return back /\
    py_eq back (PDict [(str "title", PStr (str "test")); (str "type", PInt 3)]) = true.
Proof.
  apply (write_read_round_trip TextField_get_prep_value TextField_get_db_prep_save
           (JSONField_init no_kwargs)
           (PDict [(str "title", PStr (str "test")); (str "type", PInt 3)]) tt);
    reflexivity.
Defined.

(** X2: what [value_from_object] renders for a supported attribute value is read
    by [to_python] as a value equal to the attribute, whether the field is
    nullable or not. *)
Theorem value_from_object_read_back (self : JSONField) (obj : pyobject) (value : pyval) :
  serializer self = dumps ->
  deserializer self = loads ->
  obj !! attname self = Some value ->
  supported value = true ->
  exists (rendered back : pyval),
    value_from_object self obj = Return rendered /\
    to_python self rendered = Return back /\
    py_eq back value = true.
Proof.
  intros Hs Hd Hobj Hsup.
  unfold value_from_object, Field_value_from_object. rewrite Hobj. simpl.
  destruct (null self && is_None value) eqn:E.
  - apply andb_true_iff in E. destruct E as [_ E].
    destruct value; try discriminate E.
    exists PNone, PNone. repeat split.
  - destruct (to_python_encoded self value Hd Hsup) as (text & Henc & Hne & Hread).
    exists (PStr text), (sort_keys value). split; [|split].
    + rewrite Hs. unfold dumps. rewrite Henc. reflexivity.
    + exact Hread.
    + apply py_eq_sort_keys. exact Hsup.
Qed.

Lemma value_from_object_read_back_witness :
  exists (rendered back : pyval),
    value_from_object (JSONField_init no_kwargs) {[ "json"%string := PList [PNone; PInt 2] ]}
      = Return rendered /\
    to_python (JSONField_init no_kwargs) rendered = Return back /\
    py_eq back (PList [PNone; PInt 2]) = true.
Proof.
  apply (value_from_object_read_back (JSONField_init no_kwargs)
           {[ "json"%string := PList [PNone; PInt 2] ]} (PList [PNone; PInt 2]));
    reflexivity.
Defined.

(** ** What [to_python] never does *)

(** X3: [to_python] never raises a [ValueError], whatever the value and whatever
    the deserializer of the field does: an exception that leaves it is not a
    [ValueError]. *)
Theorem to_python_no_ValueError (self : JSONField) (value : pyval) :
  match to_python self value with
  | Raise e => is_ValueError e = false
  | _ => True
  end.
Proof.
  unfold to_python. destruct (py_eq value (PStr [])); [exact I|].
  destruct (to_python_try self value) as [a|e'|] eqn:E; try exact I.
  destruct (is_ValueError e') eqn:Ev; [exact I | exact Ev].
Qed.

(** X4: [bytes] that are not valid UTF-8 come back unchanged, whatever the
    deserializer: decoding them raises a [UnicodeDecodeError], which is a
    [ValueError]. *)
Theorem to_python_bytes_undecodable (self : JSONField) (b : list N) (e : exn) :
  utf8_decode b = Raise e -> to_python self (PBytes b) = Return (PBytes b).
Proof.
  intros H. pose proof (utf8_decode_raises (length b) b (le_n _)) as Hr.
  rewrite H in Hr. subst e.
  unfold to_python. rewrite py_eq_bytes_str. simpl. rewrite H. reflexivity.
Qed.

Lemma to_python_bytes_undecodable_witness :
  to_python (JSONField_init no_kwargs) (PBytes [237; 160; 128]) = Return (PBytes [237; 160; 128]).
Proof.
  apply (to_python_bytes_undecodable (JSONField_init no_kwargs) [237; 160; 128]
           UnicodeDecodeError).
  reflexivity.
Defined.

(** X5: a string that spells an integer does not stay a string: the text
    conversion of the base class ends in [to_python], so already on write
    the string becomes the integer, as it does on read. *)
Theorem integer_string_becomes_int (self : JSONField) (z : Z) :
  deserializer self = loads ->
  get_prep_value TextField_get_prep_value self (PStr (int_repr z)) = Return (PInt z) /\
  get_db_prep_save TextField_get_db_prep_save self (PStr (int_repr z)) tt = Return (PInt z) /\
  from_db_value self (PStr (int_repr z)) = Return (PInt z).
Proof.
  intros Hd.
  destruct (to_python_encoded self (PInt z) Hd eq_refl) as (text & Henc & Hne & Hread).
  injection Henc as <-. cbn [sort_keys] in Hread.
  assert (H : get_prep_value TextField_get_prep_value self (PStr (int_repr z))
              = Return (PInt z)).
  { unfold get_prep_value. rewrite (py_eq_nonempty_str _ Hne). cbn [is_dict_or_list].
    exact Hread. }
  split; [exact H|]. split; [|exact Hread].
  unfold get_db_prep_save. rewrite (py_eq_nonempty_str _ Hne). cbn [is_dict_or_list].
  exact H.
Qed.

Lemma integer_string_becomes_int_witness :
  get_prep_value TextField_get_prep_value (JSONField_init no_kwargs) (PStr (int_repr (-42)))
    = Return (PInt (-42)) /\
  get_db_prep_save TextField_get_db_prep_save (JSONField_init no_kwargs)
    (PStr (int_repr (-42))) tt = Return (PInt (-42)) /\
  from_db_value (JSONField_init no_kwargs) (PStr (int_repr (-42))) = Return (PInt (-42)).
Proof.
  apply (integer_string_becomes_int (JSONField_init no_kwargs) (-42)). reflexivity.
Defined.

(** ** [deconstruct] and [__init__] *)

(** X6: a field built again from the keyword arguments that [deconstruct]
    returns has the serializer and the deserializer of the field, custom or
    default, whatever the base class reports; the name, the path, the
    positional arguments and the other options are those the base class
    reports. *)
Theorem deconstruct_init
    (super_deconstruct : JSONField -> string * string * list pyval * kwargs)
    (self : JSONField) :
  let kw := snd (deconstruct super_deconstruct self) in
  let kw0 := snd (super_deconstruct self) in
  serializer (JSONField_init kw) = serializer self /\
  deserializer (JSONField_init kw) = deserializer self /\
  fst (deconstruct super_deconstruct self) = fst (super_deconstruct self) /\
  null (JSONField_init kw) = null (JSONField_init kw0) /\
  default (JSONField_init kw) = default (JSONField_init kw0).
Proof.
  unfold deconstruct. destruct (super_deconstruct self) as [[[name path] args] kw0].
  cbn [fst snd]. repeat split.
Qed.

(** ** The text that [dumps] returns *)

Local Abbreviation ascii_text := (Forall (fun c : N => c < 128)).

Lemma hex_digit_ascii (d : N) : d < 16 -> hex_digit d < 128.
Proof. intros H. unfold hex_digit. destruct (d <? 10); lia. Qed.

Lemma u_escape_ascii (n : N) : n < 65536 -> ascii_text (u_escape n).
Proof.
  intros H. unfold u_escape.
  assert (H3 : n / 4096 < 16) by (apply N.Div0.div_lt_upper_bound; lia).
  assert (H2 : (n / 256) mod 16 < 16) by (apply N.mod_lt; lia).
  assert (H1 : (n / 16) mod 16 < 16) by (apply N.mod_lt; lia).
  assert (H0 : n mod 16 < 16) by (apply N.mod_lt; lia).
  repeat constructor; try lia; apply hex_digit_ascii; assumption.
Qed.

Lemma escape_char_ascii (c : N) : ascii_text (escape_char c).
Proof.
  unfold escape_char.
  repeat match goal with
         | |- context [if ?a =? ?b then _ else _] => destruct (a =? b);
             [repeat constructor; lia|]
         end.
  destruct ((32 <=? c) && (c <=? 126)) eqn:Hp.
  - apply andb_true_iff in Hp. destruct Hp as [_ Hp]. apply N.leb_le in Hp.
    repeat constructor. lia.
  - destruct (N.ltb_spec c 65536) as [Hb|Hb]; [apply u_escape_ascii; exact Hb|].
    cbv zeta. rewrite surrogate_high, surrogate_low.
    apply Forall_app. split; apply u_escape_ascii.
    + pose proof (N.mod_lt ((c - 65536) / 1024) 1024 ltac:(discriminate)). lia.
    + pose proof (N.mod_lt (c - 65536) 1024 ltac:(discriminate)). lia.
Qed.

Lemma encode_basestring_ascii_ascii (s : pystr) : ascii_text (encode_basestring_ascii s).
Proof.
  unfold encode_basestring_ascii. constructor; [lia|].
  apply Forall_app. split; [|repeat constructor; lia].
  induction s as [|c s IH]; [constructor|].
  simpl. apply Forall_app. split; [apply escape_char_ascii | exact IH].
Qed.

Lemma uint_chars_ascii (d : Decimal.uint) : ascii_text (uint_chars d).
Proof. induction d; simpl; constructor; try lia; assumption. Qed.

Lemma int_repr_ascii (z : Z) : ascii_text (int_repr z).
Proof.
  unfold int_repr. destruct (Z.to_int z); [|constructor; [lia|]]; apply uint_chars_ascii.
Qed.

Lemma newline_indent_ascii (lvl : nat) : ascii_text (newline_indent lvl).
Proof.
  unfold newline_indent. constructor; [lia|].
  induction (2 * lvl)%nat; simpl; constructor; try lia; assumption.
Qed.

Lemma join_ascii (sep : pystr) (l : list pystr) :
  ascii_text sep -> Forall ascii_text l -> ascii_text (join sep l).
Proof.
  intros Hsep Hl. induction l as [|x l IH]; [constructor|].
  inversion Hl as [|? ? Hx Hl']; subst. destruct l as [|y l]; [exact Hx|].
  rewrite join_cons2. apply Forall_app. split; [exact Hx|].
  apply Forall_app. split; [exact Hsep | apply IH; exact Hl'].
Qed.

Lemma encode_container_ascii (o c : N) (lvl : nat) (chunks : list pystr) :
  o < 128 -> c < 128 -> Forall ascii_text chunks ->
  encode_container o c lvl chunks <> [] /\ ascii_text (encode_container o c lvl chunks).
Proof.
  intros Ho Hc Hl. split; [destruct chunks; discriminate|].
  destruct chunks as [|x chunks]; [repeat constructor; lia|].
  rewrite length_encode_container by discriminate.
  constructor; [exact Ho|].
  apply Forall_app. split; [apply newline_indent_ascii|].
  apply Forall_app. split.
  - apply join_ascii; [|exact Hl]. constructor; [lia | apply newline_indent_ascii].
  - apply Forall_app. split; [apply newline_indent_ascii | repeat constructor; exact Hc].
Qed.

(** An encoder result is a text that is not empty and all ASCII, or the
    [TypeError] of a value the encoder does not know. *)
Local Abbreviation encoded_or_TypeError :=
  (fun m : outcome pystr =>
     match m with
     | Return text => text <> [] /\ ascii_text text
     | Raise e => e = TypeError
     | Unmodelled => False
     end).

Lemma osequence_encoded (l : list (outcome pystr)) :
  Forall encoded_or_TypeError l ->
  match osequence l with
  | Return chunks => Forall ascii_text chunks
  | Raise e => e = TypeError
  | Unmodelled => False
  end.
Proof.
  induction l as [|m l IH]; intros H; [constructor|].
  inversion H as [|? ? Hm Hl]; subst. specialize (IH Hl). cbn [osequence].
  destruct m as [x|e|]; cbn [mbind outcome_bind]; [|exact Hm | exact Hm].
  destruct (osequence l) as [xs|e|]; cbn [mbind outcome_bind]; [|exact IH | exact IH].
  constructor; [apply Hm | exact IH].
Qed.

Lemma iterencode_encoded (v : pyval) : forall lvl, encoded_or_TypeError (iterencode lvl v).
Proof.
  induction v as [| b | z | s | b | l IH | d IH] using pyval_ind; intros lvl.
  - split; [discriminate | repeat constructor; lia].
  - destruct b; (split; [discriminate | repeat constructor; lia]).
  - split; [|apply int_repr_ascii].
    apply starts_value_nonnil, starts_value_int_repr.
  - split; [discriminate | apply encode_basestring_ascii_ascii].
  - reflexivity.
  - cbn [iterencode].
    assert (H : Forall encoded_or_TypeError (List.map (iterencode (S lvl)) l)).
    { apply List.Forall_map. eapply List.Forall_impl; [|exact IH]. intros a Ha. apply Ha. }
    apply osequence_encoded in H.
    destruct (osequence (List.map (iterencode (S lvl)) l)) as [chunks|e|];
      cbn [mbind outcome_bind]; [|exact H | exact H].
    apply encode_container_ascii; [lia | lia | exact H].
  - cbn [iterencode]. rewrite (sort_items_map (iterencode (S lvl))).
    assert (H : Forall encoded_or_TypeError
                  (List.map encode_item
                     (List.map (fun kv => (fst kv, iterencode (S lvl) (snd kv)))
                        (sort_items d)))).
    { rewrite List.map_map. apply List.Forall_map.
      apply (Permutation_Forall (Permutation_sym (sort_items_perm d))).
      eapply List.Forall_impl; [|exact IH]. intros [k a] Ha. cbn [fst snd] in *.
      specialize (Ha (S lvl)). unfold encode_item. cbn [fst snd].
      destruct (iterencode (S lvl) a) as [c|e|]; cbn [mbind outcome_bind];
        [|exact Ha | exact Ha].
      unfold item_text. split; [discriminate|].
      apply Forall_app. split; [apply encode_basestring_ascii_ascii|].
      apply Forall_app. split; [repeat constructor; lia | apply Ha]. }
    apply osequence_encoded in H.
    match goal with |- context [osequence ?x] => destruct (osequence x) as [chunks|e|] end;
      cbn [mbind outcome_bind]; [|exact H | exact H].
    apply encode_container_ascii; [lia | lia | exact H].
Qed.

(** X7: writing a dict or a list with the default serializer stores a text that
    is not empty and has only ASCII characters, or raises the [TypeError] of
    the encoder; it never stores [None] or the empty string for it. *)
Theorem get_prep_value_text {Args : Type}
    (base_prep : JSONField -> pyval -> outcome pyval)
    (base_save : JSONField -> pyval -> Args -> outcome pyval)
    (self : JSONField) (value : pyval) (args : Args) :
  serializer self = dumps ->
  is_dict_or_list value = true ->
  get_db_prep_save base_save self value args = get_prep_value base_prep self value /\
  ((exists text, get_prep_value base_prep self value = Return (PStr text) /\
                 text <> [] /\ Forall (fun c => c < 128) text) \/
   get_prep_value base_prep self value = Raise TypeError).
Proof.
  intros Hs Hdl.
  assert (Hg : get_prep_value base_prep self value = serializer self value)
    by (destruct value; try discriminate Hdl; reflexivity).
  assert (Hg' : get_db_prep_save base_save self value args = serializer self value)
    by (destruct value; try discriminate Hdl; reflexivity).
  rewrite Hg, Hg', Hs. split; [reflexivity|].
  unfold dumps. pose proof (iterencode_encoded value 0%nat) as H.
  destruct (iterencode 0 value) as [text|e|]; cbn [mbind outcome_bind].
  - left. exists text. split; [reflexivity | exact H].
  - right. rewrite H. reflexivity.
  - contradiction.
Qed.

Lemma get_prep_value_text_witness :
  get_db_prep_save TextField_get_db_prep_save (JSONField_init no_kwargs)
    (PList [PStr [233]; PBytes [1]]) tt
  = get_prep_value TextField_get_prep_value (JSONField_init no_kwargs)
      (PList [PStr [233]; PBytes [1]]) /\
  ((exists text,
      get_prep_value TextField_get_prep_value (JSONField_init no_kwargs)
        (PList [PStr [233]; PBytes [1]]) = Return (PStr text) /\
      text <> [] /\ Forall (fun c => c < 128) text) \/
   get_prep_value TextField_get_prep_value (JSONField_init no_kwargs)
     (PList [PStr [233]; PBytes [1]]) = Raise TypeError).
Proof.
  apply (get_prep_value_text TextField_get_prep_value TextField_get_db_prep_save
           (JSONField_init no_kwargs) (PList [PStr [233]; PBytes [1]]) tt);
    reflexivity.
Defined.

(** ** Bytes from the database *)

Lemma utf8_decode_ascii (s : pystr) : Forall (fun c => c < 128) s -> utf8_decode s = Return s.
Proof.
  induction s as [|c s IH]; intros H; [reflexivity|].
  inversion H as [|? ? Hc Hs]; subst. cbn [utf8_decode].
  apply N.ltb_lt in Hc. rewrite Hc, (IH Hs). reflexivity.
Qed.

(** X8: the text of a supported value that comes from the database as [bytes]
    is read as the value, like the same text as a [str]. *)
Theorem to_python_encoded_bytes (self : JSONField) (value : pyval) :
  serializer self = dumps ->
  deserializer self = loads ->
  supported value = true ->
  exists (text : pystr) (back : pyval),
    serializer self value = Return (PStr text) /\
    to_python self (PBytes text) = Return back /\
    to_python self (PStr text) = Return back /\
    py_eq back value = true.
Proof.
  intros Hs Hd Hsup.
  destruct (loads_encoded value Hsup) as (text & Henc & Hne & Hl).
  exists text, (sort_keys value).
  pose proof (iterencode_encoded value 0%nat) as Hascii. rewrite Henc in Hascii.
  split; [rewrite Hs; unfold dumps; rewrite Henc; reflexivity|].
  split; [|split; [|apply py_eq_sort_keys; exact Hsup]].
  - unfold to_python. rewrite py_eq_bytes_str. cbn [to_python_try].
    rewrite (utf8_decode_ascii text (proj2 Hascii)). cbn [mbind outcome_bind].
    rewrite Hd, Hl. reflexivity.
  - unfold to_python. rewrite (py_eq_nonempty_str text Hne). cbn [to_python_try].
    rewrite Hd, Hl. reflexivity.
Qed.

Lemma to_python_encoded_bytes_witness :
  exists (text : pystr) (back : pyval),
    serializer (JSONField_init no_kwargs) (PList [PStr [233; 128512]; PInt 7])
      = Return (PStr text) /\
    to_python (JSONField_init no_kwargs) (PBytes text) = Return back /\
    to_python (JSONField_init no_kwargs) (PStr text) = Return back /\
    py_eq back (PList [PStr [233; 128512]; PInt 7]) = true.
Proof.
  apply (to_python_encoded_bytes (JSONField_init no_kwargs)
           (PList [PStr [233; 128512]; PInt 7])); reflexivity.
Defined.

(** ** The order of the items of a dict *)

Lemma str_leb_total (a b : pystr) : str_leb a b = true \/ str_leb b a = true.
Proof.
  revert b. induction a as [|x a IH]; intros b; [left; reflexivity|].
  destruct b as [|y b]; [right; reflexivity|]. simpl.
  destruct (N.ltb_spec x y); [left; reflexivity|].
  destruct (N.ltb_spec y x); [right; reflexivity|]. apply IH.
Qed.

Lemma str_leb_antisym (a b : pystr) : str_leb a b = true -> str_leb b a = true -> a = b.
Proof.
  revert b. induction a as [|x a IH]; intros [|y b]; simpl; try discriminate; [reflexivity|].
  destruct (N.ltb_spec x y); destruct (N.ltb_spec y x); try discriminate; try lia.
  intros H1 H2. f_equal; [lia | apply IH; assumption].
Qed.

Lemma str_leb_trans (a b c : pystr) :
  str_leb a b = true -> str_leb b c = true -> str_leb a c = true.
Proof.
  revert b c. induction a as [|x a IH]; intros [|y b] [|z c]; simpl;
    try discriminate; try reflexivity.
  destruct (N.ltb_spec x y); destruct (N.ltb_spec y x); try discriminate; try lia;
    destruct (N.ltb_spec y z); destruct (N.ltb_spec z y); try discriminate; try lia;
    destruct (N.ltb_spec x z); destruct (N.ltb_spec z x); try reflexivity; try lia.
  apply IH.
Qed.

Local Abbreviation key_le :=
  (fun a b : pystr * _ => str_leb (fst a) (fst b) = true).

Lemma insert_item_sorted {V} (kv : pystr * V) (l : list (pystr * V)) :
  StronglySorted key_le l -> StronglySorted key_le (insert_item kv l).
Proof.
  induction l as [|kv' l IH]; intros Hs; [repeat constructor|].
  inversion Hs as [|? ? Hs' Hall]; subst. simpl.
  destruct (str_leb (fst kv) (fst kv')) eqn:E.
  - constructor; [exact Hs|]. constructor; [exact E|].
    eapply List.Forall_impl; [|exact Hall]. intros a Ha.
    apply (str_leb_trans _ (fst kv')); assumption.
  - constructor; [apply IH; exact Hs'|].
    apply (Permutation_Forall (Permutation_sym (insert_item_perm kv l))).
    constructor; [|exact Hall].
    destruct (str_leb_total (fst kv) (fst kv')) as [H|H]; [congruence | exact H].
Qed.

Lemma sort_items_sorted {V} (l : list (pystr * V)) : StronglySorted key_le (sort_items l).
Proof.
  induction l as [|kv l IH]; [constructor|]. simpl. apply insert_item_sorted. exact IH.
Qed.

Lemma same_key_same_item {V} (a b : pystr * V) (l : list (pystr * V)) :
  List.NoDup (List.map fst l) -> In a l -> In b l -> fst a = fst b -> a = b.
Proof.
  induction l as [|c l IH]; intros Hnd Ha Hb Hk; [contradiction|].
  simpl in Hnd. inversion Hnd as [|? ? Hc Hnd']; subst.
  destruct Ha as [<-|Ha], Hb as [<-|Hb].
  - reflexivity.
  - exfalso. apply Hc. rewrite Hk. apply List.in_map. exact Hb.
  - exfalso. apply Hc. rewrite <- Hk. apply List.in_map. exact Ha.
  - apply IH; assumption.
Qed.

Lemma sorted_perm_eq {V} (l1 : list (pystr * V)) :
  forall l2, StronglySorted key_le l1 -> StronglySorted key_le l2 ->
             Permutation l1 l2 -> List.NoDup (List.map fst l1) -> l1 = l2.
Proof.
  induction l1 as [|a l1 IH]; intros l2 H1 H2 Hp Hnd.
  - apply Permutation_nil in Hp. congruence.
  - destruct l2 as [|b l2]; [apply Permutation_sym, Permutation_nil in Hp; discriminate|].
    inversion H1 as [|? ? H1' Ha]; subst. inversion H2 as [|? ? H2' Hb]; subst.
    assert (Hab : a = b).
    { assert (Hina : In a (b :: l2)) by (apply (Permutation_in _ Hp); left; reflexivity).
      assert (Hinb : In b (a :: l1))
        by (apply (Permutation_in _ (Permutation_sym Hp)); left; reflexivity).
      apply (same_key_same_item a b (a :: l1) Hnd); [left; reflexivity | exact Hinb|].
      destruct Hina as [<-|Hina]; [reflexivity|].
      destruct Hinb as [<-|Hinb]; [reflexivity|].
      rewrite List.Forall_forall in Ha, Hb.
      apply str_leb_antisym; [apply (Ha b Hinb) | apply (Hb a Hina)]. }
    subst b. f_equal. apply IH; try assumption.
    + apply (Permutation_cons_inv Hp).
    + simpl in Hnd. inversion Hnd. assumption.
Qed.

Lemma sort_items_perm_eq {V} (l1 l2 : list (pystr * V)) :
  Permutation l1 l2 -> List.NoDup (List.map fst l1) -> sort_items l1 = sort_items l2.
Proof.
  intros Hp Hnd. apply sorted_perm_eq; try apply sort_items_sorted.
  - rewrite (sort_items_perm l1), (sort_items_perm l2). exact Hp.
  - apply (Permutation_NoDup (l := List.map fst l1)); [|exact Hnd].
    apply Permutation_map. apply Permutation_sym. apply sort_items_perm.
Qed.

(** X9: with [sort_keys=True] the text of a dict does not depend on the order in
    which its items were inserted: two dicts with the same items, the keys
    being distinct, are serialized alike. *)
Theorem dumps_insertion_order (d1 d2 : list (pystr * pyval)) :
  Permutation d1 d2 ->
  keys_distinct (List.map fst d1) = true ->
  dumps (PDict d1) = dumps (PDict d2).
Proof.
  intros Hp Hnd. apply keys_distinct_NoDup in Hnd. unfold dumps. cbn [iterencode].
  rewrite !(sort_items_map (iterencode 1)).
  rewrite (sort_items_perm_eq d1 d2 Hp Hnd). reflexivity.
Qed.

Lemma dumps_insertion_order_witness :
  dumps (PDict [(str "b", PInt 1); (str "a", PList []); (str "c", PNone)])
  = dumps (PDict [(str "c", PNone); (str "b", PInt 1); (str "a", PList [])]).
Proof.
  apply dumps_insertion_order.
  - apply Permutation_sym. apply (Permutation_cons_append [_; _] (str "c", PNone)).
  - reflexivity.
Defined.

(** ** More on the auto one-to-one accessor *)

Section DescriptorPaths.

Context {World Instance Obj : Type}.
Variable super_get : Instance -> stateful World Obj.
Variable get_or_create : list (string * Instance) -> stateful World (Obj * bool).
Variable rollback : World -> World -> World.
Variable field_name : string.

Lemma get_cases (i : Instance) (w : World) :
  match __get__ super_get get_or_create rollback field_name i w with
  | (Return o, w') =>
      super_get i w = (Return o, w') \/
      exists w1 r w2,
        super_get i w = (Raise DoesNotExist, w1) /\
        get_or_create [(field_name, i)] w1 = (Return r, w2) /\
        super_get i w2 = (Return o, w')
  | (Raise e, w') => exists w1, w' = rollback w w1
  | (Unmodelled, _) => True
  end.
Proof.
  unfold __get__, atomic, try_except.
  destruct (super_get i w) as [[o|e|] w1] eqn:E1.
  - left. reflexivity.
  - destruct e; cbn [is_DoesNotExist]; try (exists w1; reflexivity).
    unfold mbind, stateful_bind.
    destruct (get_or_create [(field_name, i)] w1) as [[r|e|] w2] eqn:E2.
    + destruct (super_get i w2) as [[o|e|] w3] eqn:E3.
      * right. exists w1, r, w2. repeat split; assumption.
      * exists w3. reflexivity.
      * exact I.
    + exists w2. reflexivity.
    + exact I.
  - exact I.
Qed.


(** X10: every object the accessor returns is one that the standard lookup
    returned, at once or after the one creation step that follows a
    [DoesNotExist]; and whenever the accessor raises, the transaction has
    been rolled back. *)
Theorem get_paths (i : Instance) (w : World) :
  match __get__ super_get get_or_create rollback field_name i w with
  | (Return o, w') =>
      super_get i w = (Return o, w') \/
      exists w1 r w2,
        super_get i w = (Raise DoesNotExist, w1) /\
        get_or_create [(field_name, i)] w1 = (Return r, w2) /\
        super_get i w2 = (Return o, w')
  | (Raise e, w') => exists w1, w' = rollback w w1
  | (Unmodelled, _) => True
  end.
Proof. apply get_cases. Qed.

End DescriptorPaths.

Lemma lookup_table (name : string) (i : Django.instance) (w : Django.world) :
  Django.table (snd (Django.lookup name i w)) = Django.table w.
Proof.
  unfold Django.lookup.
  destruct (Django.cache w !! Django.iid i); [reflexivity|].
  destruct (Django.ipk i); [|reflexivity].
  destruct (Django.get_row _ w); reflexivity.
Qed.

Lemma lookup_cached (name : string) (i : Django.instance) (w w' : Django.world)
    (o : Django.relobj) :
  Django.lookup name i w = (Return o, w') -> Django.cache w' !! Django.iid i = Some o.
Proof.
  unfold Django.lookup.
  destruct (Django.cache w !! Django.iid i) as [o'|] eqn:Ec.
  - intros H. injection H as <- <-. exact Ec.
  - destruct (Django.ipk i); [|discriminate].
    destruct (Django.get_row _ w); try discriminate.
    unfold Django.instantiate. intros H. injection H as <- <-.
    simpl. apply lookup_insert_eq.
Qed.

Lemma lookup_modelled (name : string) (i : Django.instance) (w w' : Django.world) :
  Django.lookup name i w <> (Unmodelled, w').
Proof.
  unfold Django.lookup, Django.get_row.
  destruct (Django.cache w !! Django.iid i); [discriminate|].
  destruct (Django.ipk i); [|discriminate].
  destruct (List.filter _ _) as [|r0 [|r1 rs]]; discriminate.
Qed.

Lemma lookup_hit (name : string) (i : Django.instance) (w : Django.world)
    (o : Django.relobj) :
  Django.cache w !! Django.iid i = Some o -> Django.lookup name i w = (Return o, w).
Proof. intros H. unfold Django.lookup. rewrite H. reflexivity. Qed.

(** X11: once the accessor has returned an object for an instance, it returns
    that same object again and changes nothing, whatever the world it
    started from: the object is in the cache of the instance. *)
Theorem auto_get_idempotent (name : string) (i : Django.instance)
    (w w' : Django.world) (o : Django.relobj) :
  Django.auto_get name i w = (Return o, w') ->
  Django.cache w' !! Django.iid i = Some o /\
  Django.auto_get name i w' = (Return o, w').
Proof.
  intros H. unfold Django.auto_get in *.
  pose proof (get_cases (Django.lookup name) Django.get_or_create Django.rollback name i w)
    as Hp.
  rewrite H in Hp.
  assert (Hc : Django.cache w' !! Django.iid i = Some o).
  { destruct Hp as [Hl | (w1 & r & w2 & _ & _ & Hl)]; apply (lookup_cached _ _ _ _ _ Hl). }
  split; [exact Hc|]. apply get_found. apply lookup_hit. exact Hc.
Qed.

Lemma auto_get_idempotent_witness :
  let r := {| Django.row_pk := 1%nat; Django.row_set := {[ "user"%string := 1%nat ]} |} in
  let o := {| Django.oid := 10%nat; Django.orow := r |} in
  let w' := {| Django.table := [r]; Django.next_pk := 2%nat; Django.next_oid := 11%nat;
               Django.cache := {[ 0%nat := o ]} |} in
  Django.cache w' !! Django.iid Django.alice = Some o /\
  Django.auto_get "user" Django.alice w' = (Return o, w').
Proof.
  intros r o w'.
  apply (auto_get_idempotent "user" Django.alice Django.empty_world w' o).
  reflexivity.
Defined.

(** X12: the accessor adds at most one row to the table of the related model,
    and only for a saved instance that has no related row and nothing
    cached; it changes and removes no row, and when it raises the table is
    as before. *)
Theorem auto_get_table (name : string) (i : Django.instance) (w : Django.world) :
  let res := Django.auto_get name i w in
  Django.table (snd res) = Django.table w \/
  exists k o,
    fst res = Return o /\
    Django.ipk i = Some k /\
    Django.cache w !! Django.iid i = None /\
    Django.related_rows name k w = [] /\
    Django.table (snd res)
    = Django.table w ++ [{| Django.row_pk := Django.next_pk w;
                            Django.row_set := {[ name := k ]} |}].
Proof.
  cbv zeta. unfold Django.auto_get, __get__, atomic, try_except.
  pose proof (lookup_table name i w) as Ht1.
  destruct (Django.lookup name i w) as [[o|e|] w1] eqn:E1; cbn [snd fst] in *.
  - left. exact Ht1.
  - destruct (is_DoesNotExist e) eqn:Ee; [|left; reflexivity].
    destruct e; try discriminate Ee. clear Ee.
    unfold Django.lookup in E1.
    destruct (Django.cache w !! Django.iid i) eqn:Ec; [discriminate|].
    destruct (Django.ipk i) as [k|] eqn:Ek.
    + unfold Django.get_row in E1.
      destruct (List.filter (Django.row_has name k) (Django.table w)) as [|r0 [|r1 rs]] eqn:Ef;
        try discriminate.
      injection E1 as <-.
      unfold mbind, stateful_bind.
      unfold Django.get_or_create. cbn [Django.filter_args]. rewrite Ek.
      unfold Django.get_row. rewrite filter_row_matches_single, Ef.
      cbn [Django.insert_row Django.instantiate].
      match goal with |- context [Django.lookup name i ?w2] =>
        pose proof (lookup_table name i w2) as Ht2;
        destruct (Django.lookup name i w2) as [[o|e|] w3] eqn:E3
      end; cbn [snd fst Django.table] in *.
      * right. exists k, o. repeat split; try assumption.
      * left. reflexivity.
      * exfalso. apply (lookup_modelled _ _ _ _ E3).
    + injection E1 as <-. unfold mbind, stateful_bind.
      unfold Django.get_or_create. cbn [Django.filter_args]. rewrite Ek. left. reflexivity.
  - left. exact Ht1.
Qed.

(** X13: when the related row exists and is not cached, the accessor returns an
    object built from that row and creates nothing. *)
Theorem auto_get_existing (name : string) (i : Django.instance) (k : nat)
    (r : Django.row) (w : Django.world) :
  Django.ipk i = Some k ->
  Django.cache w !! Django.iid i = None ->
  Django.related_rows name k w = [r] ->
  exists w',
    Django.auto_get name i w = (Return {| Django.oid := Django.next_oid w; Django.orow := r |}, w') /\
    Django.table w' = Django.table w /\
    Django.next_pk w' = Django.next_pk w.
Proof.
  intros Hk Hc Hr. unfold Django.related_rows in Hr.
  eexists. split.
  - unfold Django.auto_get. apply get_found.
    unfold Django.lookup, Django.get_row. rewrite Hc, Hk, Hr. reflexivity.
  - split; reflexivity.
Qed.

Lemma auto_get_existing_witness :
  let r := {| Django.row_pk := 5%nat; Django.row_set := {[ "user"%string := 1%nat ]} |} in
  let w := {| Django.table := [r]; Django.next_pk := 6%nat; Django.next_oid := 0%nat;
              Django.cache := ∅ |} in
  exists w',
    Django.auto_get "user" Django.alice w
    = (Return {| Django.oid := Django.next_oid w; Django.orow := r |}, w') /\
    Django.table w' = Django.table w /\
    Django.next_pk w' = Django.next_pk w.
Proof.
  intros r w. apply (auto_get_existing "user" Django.alice 1 r w); reflexivity.
Defined.
